(** * utils/shell.py: splitting and running semicolon-delimited commands

    A shallow embedding of [ShellUtil] (utils/shell.py) and of the Python
    built-ins it calls ([str.strip], [str.split], [isinstance],
    [subprocess.run]), followed by the properties of the command splitter
    and of the command runner. *)

From Stdlib Require Import Ascii String.
From Stdlib Require Import List NArith ZArith Bool.
Import ListNotations.

(* ===================================================================== *)
(** ** Python values and built-ins *)
(* ===================================================================== *)

Module Py.

(** A Python [str] is a sequence of Unicode code points. *)
Definition char := N.
Definition str := list char.

(** Literals: an ASCII Rocq string read as a Python [str]. *)
Definition of_string (s : string) : str :=
  map N_of_ascii (list_ascii_of_string s).

(** The objects handed to [ShellUtil]: strings, lists and tuples, which
    the type tests of the source tell apart, and [None] and integers for
    what falls through them. Of these only [str] has a [strip] method.
    Objects of other types that have one ([bytes], [bytearray],
    [collections.UserString]) are not modelled: a statement about every
    element that is not a [str] speaks of these five types only. *)
#[warnings="-register-all"]
Inductive pyobj : Type :=
| PyNone
| PyInt (z : Z)
| PyStr (s : str)
| PyList (items : list pyobj)
| PyTuple (items : list pyobj).

(** Exceptions, as values. *)
Inductive exn : Type :=
| TypeError (msg : string)
| AttributeError (attr : string)
| IndexError (msg : string)
| FileNotFoundError (msg : string)
| CalledProcessError (returncode : Z).

Inductive result (A : Type) : Type :=
| Ok (a : A)
| Raise (e : exn).
Arguments Ok {A} a.
Arguments Raise {A} e.

Definition bind {A B} (r : result A) (k : A -> result B) : result B :=
  match r with
  | Ok a => k a
  | Raise e => Raise e
  end.

(** [isinstance(x, str)] and [isinstance(x, (typing.List, typing.Tuple))]. *)
Definition isinstance_str (x : pyobj) : bool :=
  match x with PyStr _ => true | _ => false end.

Definition isinstance_List_Tuple (x : pyobj) : bool :=
  match x with PyList _ | PyTuple _ => true | _ => false end.

(** The elements a [for] loop over a list or a tuple visits. *)
Definition iter (x : pyobj) : list pyobj :=
  match x with PyList items | PyTuple items => items | _ => [] end.

(** [Py_UNICODE_ISSPACE]: the code points [str.strip()] and [str.split()]
    treat as whitespace. *)
Definition isspace (c : char) : bool :=
  ((9 <=? c) && (c <=? 13)          (* \t \n \v \f \r *)
   || (28 <=? c) && (c <=? 32)      (* FS GS RS US and the space *)
   || (c =? 133) || (c =? 160)      (* NEL, no-break space *)
   || (c =? 5760)                   (* U+1680 *)
   || (8192 <=? c) && (c <=? 8202)  (* U+2000 .. U+200A *)
   || (c =? 8232) || (c =? 8233)    (* U+2028, U+2029 *)
   || (c =? 8239) || (c =? 8287)    (* U+202F, U+205F *)
   || (c =? 12288))%N.              (* U+3000 *)

(** [s.lstrip()], [s.rstrip()] and [s.strip()] without argument. *)
Fixpoint lstrip (s : str) : str :=
  match s with
  | [] => []
  | c :: s' => if isspace c then lstrip s' else s
  end.

Definition rstrip (s : str) : str := rev (lstrip (rev s)).

Definition strip (s : str) : str := rstrip (lstrip s).

(** [s.split(sep)] for a one-character separator: the pieces between the
    occurrences of [sep], empty pieces included, so never an empty list.
    [split_from] returns the piece that starts the string and the pieces
    after it. *)
Fixpoint split_from (sep : char) (s : str) : str * list str :=
  match s with
  | [] => ([], [])
  | c :: s' =>
      let (piece, pieces) := split_from sep s' in
      if (c =? sep)%N then ([], piece :: pieces) else (c :: piece, pieces)
  end.

Definition split (sep : char) (s : str) : list str :=
  let (piece, pieces) := split_from sep s in piece :: pieces.

(** [s.split()] without argument: the maximal runs of non-whitespace. *)
Definition push (word : str) (words : list str) : list str :=
  match word with
  | [] => words
  | _ :: _ => word :: words
  end.

Fixpoint words_from (s : str) : str * list str :=
  match s with
  | [] => ([], [])
  | c :: s' =>
      let (word, words) := words_from s' in
      if isspace c then ([], push word words) else (c :: word, words)
  end.

Definition split_ws (s : str) : list str :=
  let (word, words) := words_from s in push word words.

(** [x.strip()] on an arbitrary object: only [str] has the method here. *)
Definition call_strip (x : pyobj) : result str :=
  match x with
  | PyStr s => Ok (strip s)
  | _ => Raise (AttributeError "strip")
  end.

End Py.

Import Py.

Notation "x <- r ;; k" := (Py.bind r (fun x => k))
  (at level 61, r at next level, right associativity).

(* ===================================================================== *)
(** ** The [subprocess] module *)
(* ===================================================================== *)

Module Subprocess.

(** The keyword arguments forwarded to [subprocess.run]: [check] is the
    one that changes its control flow, [cwd] stands for those that only
    reach the child. An empty [**kwargs] is [no_kwargs]. *)
Record kwargs : Type := { check : bool; cwd : option str }.

Definition no_kwargs : kwargs := {| check := false; cwd := None |}.

(** The end of one child: it ran and exited with a return code, or
    [Popen] raised (the program does not exist, for instance). *)
Inductive child : Type :=
| Exited (returncode : Z)
| PopenRaised (e : exn).

(** The operating system, as far as the runner sees it: starting a
    program changes the world and ends in a [child]. *)
Definition launcher (world : Type) : Type :=
  list str -> kwargs -> world -> child * world.

(** The state the runner threads: the world and the argument vectors
    handed to [subprocess.run] so far, oldest first. *)
Record state (world : Type) : Type :=
  { os : world; launched : list (list str) }.
Arguments os {world} s.
Arguments launched {world} s.
Arguments Build_state {world} os launched.

Definition M (world A : Type) : Type :=
  state world -> result A * state world.

Definition ret {world A} (a : A) : M world A := fun st => (Ok a, st).

Definition lift {world A} (r : result A) : M world A := fun st => (r, st).

Definition bindM {world A B} (m : M world A) (k : A -> M world B)
  : M world B :=
  fun st =>
    match m st with
    | (Ok a, st') => k a st'
    | (Raise e, st') => (Raise e, st')
    end.

Record CompletedProcess : Type :=
  { args : list str; returncode : Z }.

(** [subprocess.run(args, **kwargs)]: wait for the child; with
    [check=True] a non-zero return code raises [CalledProcessError]. *)
Definition run {world} (popen : launcher world) (argv : list str)
    (kw : kwargs) : M world CompletedProcess :=
  fun st =>
    let (c, w) := popen argv kw (os st) in
    let st' := {| os := w; launched := launched st ++ [argv] |} in
    match c with
    | PopenRaised e => (Raise e, st')
    | Exited rc =>
        if check kw && negb (rc =? 0)%Z
        then (Raise (CalledProcessError rc), st')
        else (Ok {| args := argv; returncode := rc |}, st')
    end.

End Subprocess.

Notation "x <~ m ;; k" := (Subprocess.bindM m (fun x => k))
  (at level 61, m at next level, right associativity).

(** The delimiter between commands. *)
Definition semicolon : char := 59%N.

(* ===================================================================== *)
(** ** class ShellUtil: the splitter *)
(* ===================================================================== *)

Module ShellUtil.

(** [[command.split() for command in commands if len(command) > 0]] *)
Definition _get_commands (commands : list str) : list (list str) :=
  map split_ws (filter (fun command => 0 <? length command) commands).

(** [commands = command_to_execute.strip().split(';')], then
    [_get_commands(commands)]. *)
Definition _get_commands_from_str (command_to_execute : pyobj)
  : result (list (list str)) :=
  stripped <- call_strip command_to_execute ;;
  Ok (_get_commands (split semicolon stripped)).

(** The body of [for command in command_to_execute:
    commands_to_run += _get_commands_from_str(command)]. *)
Fixpoint extend_with_each (commands_to_run : list (list str))
    (command_to_execute : list pyobj) : result (list (list str)) :=
  match command_to_execute with
  | [] => Ok commands_to_run
  | command :: rest =>
      more <- _get_commands_from_str command ;;
      extend_with_each (commands_to_run ++ more) rest
  end.

Definition invalid_spec_type : exn :=
  TypeError "command_to_execute must be a string, list or tuple of commands".

Definition parse_shell_command (command_to_execute : pyobj)
  : result (list (list str)) :=
  if isinstance_str command_to_execute then
    _get_commands_from_str command_to_execute
  else if isinstance_List_Tuple command_to_execute then
    extend_with_each [] (iter command_to_execute)
  else Raise invalid_spec_type.

(** *** The runner *)

(** What [subprocess_run] returns: the class itself. *)
Inductive handle : Type := ShellUtil_class.

Section Runner.
Variable world : Type.
Variable popen : Subprocess.launcher world.

(** [for command in commands_to_execute: subprocess.run(command, **kwargs)] *)
Fixpoint run_each (commands_to_execute : list (list str))
    (kwargs : Subprocess.kwargs) : Subprocess.M world unit :=
  match commands_to_execute with
  | [] => Subprocess.ret tt
  | command :: rest =>
      _ <~ Subprocess.run popen command kwargs ;;
      run_each rest kwargs
  end.

Definition subprocess_run (commands : pyobj) (kwargs : Subprocess.kwargs)
  : Subprocess.M world handle :=
  commands_to_execute <~ Subprocess.lift (parse_shell_command commands) ;;
  _ <~ run_each commands_to_execute kwargs ;;
  Subprocess.ret ShellUtil_class.
End Runner.

End ShellUtil.

Import ShellUtil.

Notation "'py' s" := (Py.of_string s%string) (at level 5, s at level 0, only parsing).

(** Spec-side vocabulary. [blank s]: [s] is empty or only whitespace.
    [nospace w]: no character of [w] is whitespace. *)
Definition blank (s : str) : bool := forallb isspace s.

Definition nospace (w : str) : bool := forallb (fun c => negb (isspace c)) w.

(** The whitespace-separated tokens of a string, said declaratively:
    whitespace, then a maximal run of non-whitespace, then the tokens of
    what follows. *)
Inductive ws_tokens : str -> list str -> Prop :=
| ws_tokens_blank : forall s, blank s = true -> ws_tokens s []
| ws_tokens_word : forall gap w rest ts,
    blank gap = true ->
    w <> [] -> nospace w = true ->
    (rest = [] \/ exists c rest', rest = c :: rest' /\ isspace c = true) ->
    ws_tokens rest ts ->
    ws_tokens (gap ++ w ++ rest) (w :: ts).

(** [c in s]. *)
Definition contains (c : char) (s : str) : bool := existsb (N.eqb c) s.

(** What the code computes for one string: [_get_commands_from_str] on a
    [str], where [strip] cannot fail. The whole string is stripped, it is
    split on the delimiter, and the pieces of length 0 are dropped. *)
Definition commands_from_str (text : str) : list (list str) :=
  _get_commands (split semicolon (strip text)).

(** The command substrings of a string that the splitter keeps. *)
Definition kept_commands (text : str) : list str :=
  filter (fun command => 0 <? length command) (split semicolon (strip text)).

(** The [splitString] of the specification, following its words: split
    the text on [;], discard every substring that is empty after
    stripping, split each remaining substring on whitespace, keep the
    order. It is what the code is compared with, not a model of the
    code. *)
Definition spec_splitString (text : str) : list (list str) :=
  map split_ws
    (filter (fun piece => 0 <? length (strip piece)) (split semicolon text)).

(** The vectors of the pieces that are not blank. *)
Definition vectors_of (pieces : list str) : list (list str) :=
  map split_ws (filter (fun piece => negb (blank piece)) pieces).

(** A vector with at least one token. *)
Definition has_token (v : list str) : bool :=
  match v with [] => false | _ :: _ => true end.

(** A list or a tuple all of whose elements are strings. *)
Definition sequence_of_str (x : pyobj) : bool :=
  isinstance_List_Tuple x && forallb isinstance_str (iter x).

(** A concrete operating system for the examples: [false] exits with
    status 1, a program called [nosuchprogram] cannot be started, anything
    else exits with status 0, and an empty argument vector makes [Popen]
    raise as it does on POSIX. The world is left as it is. *)
Definition demo_popen : Subprocess.launcher unit :=
  fun argv _ w =>
    match argv with
    | prog :: _ =>
        if list_eq_dec N.eq_dec prog (py "false") then (Subprocess.Exited 1, w)
        else if list_eq_dec N.eq_dec prog (py "nosuchprogram")
             then (Subprocess.PopenRaised (FileNotFoundError "nosuchprogram"), w)
             else (Subprocess.Exited 0, w)
    | [] => (Subprocess.PopenRaised (IndexError "list index out of range"), w)
    end.

Definition fresh : Subprocess.state unit :=
  {| Subprocess.os := tt; Subprocess.launched := [] |}.

(** [sep.join(pieces)] for a one-character separator. *)
Fixpoint join (sep : char) (pieces : list str) : str :=
  match pieces with
  | [] => []
  | [piece] => piece
  | piece :: rest => piece ++ sep :: join sep rest
  end.

(** [s.count(c)] for one character. *)
Definition count (c : char) (s : str) : nat := count_occ N.eq_dec s c.

(** The characters that end up in a token: neither whitespace nor the
    delimiter. *)
Definition in_token (c : char) : bool :=
  negb (isspace c) && negb (c =? semicolon)%N.

(* ===================================================================== *)
(** ** Whitespace and stripping *)
(* ===================================================================== *)

Section Strip.

Lemma semicolon_not_space : isspace semicolon = false.
Proof. reflexivity. Qed.

Lemma blank_app (a b : str) : blank (a ++ b) = blank a && blank b.
Proof. unfold blank. apply forallb_app. Qed.

Lemma blank_rev (s : str) : blank (rev s) = blank s.
Proof.
  induction s as [|c s IH]; simpl; [reflexivity|].
  rewrite blank_app, IH. simpl. rewrite andb_true_r. apply andb_comm.
Qed.

Lemma lstrip_blank (s : str) : blank s = true -> lstrip s = [].
Proof.
  induction s as [|c s IH]; simpl; [reflexivity|].
  destruct (isspace c); simpl; [exact IH | discriminate].
Qed.

Lemma lstrip_nil_blank (s : str) : lstrip s = [] -> blank s = true.
Proof.
  induction s as [|c s IH]; simpl; [reflexivity|].
  destruct (isspace c); simpl; [exact IH | discriminate].
Qed.

(** [lstrip] removes a blank prefix and what it leaves does not start
    with whitespace. *)
Lemma lstrip_split (s : str) :
  exists gap, s = gap ++ lstrip s /\ blank gap = true.
Proof.
  induction s as [|c s [gap [E B]]]; simpl.
  - exists []. split; reflexivity.
  - destruct (isspace c) eqn:Hc.
    + exists (c :: gap). simpl. rewrite Hc, B. split; [congruence | reflexivity].
    + exists []. split; reflexivity.
Qed.

Lemma lstrip_head (s : str) c r : lstrip s = c :: r -> isspace c = false.
Proof.
  induction s as [|d s IH]; simpl; [discriminate|].
  destruct (isspace d) eqn:Hd; [exact IH|].
  intros E. injection E as -> _. exact Hd.
Qed.

Lemma lstrip_app_blank (gap s : str) :
  blank gap = true -> lstrip (gap ++ s) = lstrip s.
Proof.
  induction gap as [|c gap IH]; simpl; [reflexivity|].
  destruct (isspace c); simpl; [exact IH | discriminate].
Qed.

Lemma lstrip_nonspace_head c (s : str) :
  isspace c = false -> lstrip (c :: s) = c :: s.
Proof. intros H. simpl. rewrite H. reflexivity. Qed.

(** Stripping on the left stops at the first non-whitespace character,
    whatever follows it. *)
Lemma lstrip_app_nonspace (a : str) c (b : str) :
  isspace c = false -> lstrip (a ++ c :: b) = lstrip a ++ c :: b.
Proof.
  intros Hc. induction a as [|d a IH]; simpl.
  - rewrite Hc. reflexivity.
  - destruct (isspace d); [exact IH | reflexivity].
Qed.

Lemma rstrip_blank (s : str) : blank s = true -> rstrip s = [].
Proof.
  intros H. unfold rstrip. rewrite lstrip_blank; [reflexivity|].
  rewrite blank_rev. exact H.
Qed.

Lemma rstrip_nil_blank (s : str) : rstrip s = [] -> blank s = true.
Proof.
  unfold rstrip. intros H. rewrite <- blank_rev.
  apply lstrip_nil_blank. rewrite <- (rev_involutive (lstrip (rev s))), H.
  reflexivity.
Qed.

Lemma rstrip_split (s : str) :
  exists gap, s = rstrip s ++ gap /\ blank gap = true.
Proof.
  destruct (lstrip_split (rev s)) as [gap [E B]].
  exists (rev gap). split; [|rewrite blank_rev; exact B].
  unfold rstrip. rewrite <- rev_app_distr, <- E, rev_involutive. reflexivity.
Qed.

Lemma rstrip_app_blank (s gap : str) :
  blank gap = true -> rstrip (s ++ gap) = rstrip s.
Proof.
  intros B. unfold rstrip. rewrite rev_app_distr, lstrip_app_blank; [reflexivity|].
  rewrite blank_rev. exact B.
Qed.

(** Stripping on the right stops at the last non-whitespace character,
    whatever precedes it. *)
Lemma rstrip_app_nonspace (a : str) c (b : str) :
  isspace c = false -> rstrip (a ++ c :: b) = a ++ c :: rstrip b.
Proof.
  intros Hc. unfold rstrip.
  rewrite rev_app_distr. simpl rev. rewrite <- app_assoc. simpl app.
  rewrite lstrip_app_nonspace by exact Hc.
  rewrite rev_app_distr. simpl rev. rewrite rev_involutive, <- app_assoc.
  reflexivity.
Qed.

Lemma rstrip_cons_nonspace c (b : str) :
  isspace c = false -> rstrip (c :: b) = c :: rstrip b.
Proof. exact (rstrip_app_nonspace [] c b). Qed.

(** Around a non-whitespace character the two ends are stripped apart. *)
Lemma strip_app_nonspace (a : str) c (b : str) :
  isspace c = false -> strip (a ++ c :: b) = lstrip a ++ c :: rstrip b.
Proof.
  intros Hc. unfold strip.
  rewrite lstrip_app_nonspace, rstrip_app_nonspace by exact Hc. reflexivity.
Qed.

Lemma strip_blank (s : str) : blank s = true -> strip s = [].
Proof.
  intros H. unfold strip. rewrite lstrip_blank by exact H. reflexivity.
Qed.

(** [strip] removes a blank prefix and a blank suffix, nothing else. *)
Lemma strip_split (s : str) :
  exists l r, s = l ++ strip s ++ r /\ blank l = true /\ blank r = true.
Proof.
  destruct (lstrip_split s) as [l [El Bl]].
  destruct (rstrip_split (lstrip s)) as [r [Er Br]].
  exists l, r. unfold strip. rewrite <- Er. auto.
Qed.

Lemma strip_nil_blank (s : str) : strip s = [] -> blank s = true.
Proof.
  intros H. destruct (strip_split s) as [l [r [E [Bl Br]]]].
  rewrite E, H, !blank_app, Bl, Br. reflexivity.
Qed.

Lemma strip_not_blank (s : str) : blank s = false -> strip s <> [].
Proof.
  intros H E. apply strip_nil_blank in E. congruence.
Qed.

End Strip.

(* ===================================================================== *)
(** ** Splitting on the delimiter *)
(* ===================================================================== *)

Section Split.
Variable sep : char.

Lemma split_from_no_sep (s : str) :
  ~ In sep s -> split_from sep s = (s, []).
Proof.
  induction s as [|c s IH]; simpl; intros H; [reflexivity|].
  rewrite IH by tauto.
  destruct (N.eqb_spec c sep) as [->|_]; [tauto | reflexivity].
Qed.

Lemma split_no_sep (s : str) : ~ In sep s -> split sep s = [s].
Proof. intros H. unfold split. rewrite split_from_no_sep by exact H. reflexivity. Qed.

Lemma split_cons_sep (s : str) : split sep (sep :: s) = [] :: split sep s.
Proof.
  unfold split. simpl. destruct (split_from sep s) as [piece pieces].
  rewrite N.eqb_refl. reflexivity.
Qed.

(** The piece before the first delimiter, then the pieces of the rest. *)
Lemma split_app (a b : str) :
  ~ In sep a -> split sep (a ++ sep :: b) = a :: split sep b.
Proof.
  induction a as [|c a IH]; intros H.
  - apply split_cons_sep.
  - assert (IH' := IH (fun I => H (or_intror I))).
    unfold split in *. simpl.
    destruct (split_from sep (a ++ sep :: b)) as [piece pieces].
    destruct (split_from sep b) as [pb psb].
    destruct (N.eqb_spec c sep) as [->|_]; [exfalso; apply H; left; reflexivity|].
    congruence.
Qed.

Lemma split_not_nil (s : str) : split sep s <> [].
Proof. unfold split. destruct (split_from sep s). discriminate. Qed.

(** No piece contains the delimiter. *)
Lemma split_from_pieces (s : str) :
  ~ In sep (fst (split_from sep s)) /\
  Forall (fun piece => ~ In sep piece) (snd (split_from sep s)).
Proof.
  induction s as [|c s [IH1 IH2]]; simpl.
  - split; [tauto | constructor].
  - destruct (split_from sep s) as [piece pieces]. simpl in *.
    destruct (N.eqb_spec c sep) as [->|Hne]; simpl.
    + split; [tauto | constructor; assumption].
    + split; [intros [E|I]; [congruence | tauto] | assumption].
Qed.

Lemma split_pieces (s : str) :
  Forall (fun piece => ~ In sep piece) (split sep s).
Proof.
  unfold split. pose proof (split_from_pieces s) as [H1 H2].
  destruct (split_from sep s). constructor; assumption.
Qed.

End Split.

(* ===================================================================== *)
(** ** Splitting on whitespace *)
(* ===================================================================== *)

Section Words.

Lemma words_from_blank (s : str) : blank s = true -> words_from s = ([], []).
Proof.
  induction s as [|c s IH]; simpl; [reflexivity|].
  destruct (isspace c); simpl; [|discriminate].
  intros H. rewrite IH by exact H. reflexivity.
Qed.

Lemma split_ws_blank (s : str) : blank s = true -> split_ws s = [].
Proof. intros H. unfold split_ws. rewrite words_from_blank by exact H. reflexivity. Qed.

Lemma split_ws_space c (s : str) : isspace c = true -> split_ws (c :: s) = split_ws s.
Proof.
  intros H. unfold split_ws. simpl. destruct (words_from s). rewrite H. reflexivity.
Qed.

Lemma split_ws_nonspace c (s : str) :
  isspace c = false -> split_ws (c :: s) <> [].
Proof.
  intros H. unfold split_ws. simpl. destruct (words_from s). rewrite H. discriminate.
Qed.

Lemma split_ws_nil_blank (s : str) : split_ws s = [] -> blank s = true.
Proof.
  induction s as [|c s IH]; [reflexivity|].
  destruct (isspace c) eqn:Hc.
  - rewrite split_ws_space by exact Hc. simpl. rewrite Hc. exact IH.
  - intros H. exfalso. exact (split_ws_nonspace c s Hc H).
Qed.

Lemma split_ws_app_blank_l (gap s : str) :
  blank gap = true -> split_ws (gap ++ s) = split_ws s.
Proof.
  induction gap as [|c gap IH]; simpl; [reflexivity|].
  destruct (isspace c) eqn:Hc; simpl; [|discriminate].
  intros H. rewrite split_ws_space by exact Hc. exact (IH H).
Qed.

Lemma words_from_app_blank (s gap : str) :
  blank gap = true -> words_from (s ++ gap) = words_from s.
Proof.
  intros H. induction s as [|c s IH]; simpl.
  - apply words_from_blank. exact H.
  - rewrite IH. reflexivity.
Qed.

Lemma split_ws_app_blank_r (s gap : str) :
  blank gap = true -> split_ws (s ++ gap) = split_ws s.
Proof. intros H. unfold split_ws. rewrite words_from_app_blank by exact H. reflexivity. Qed.

(** The tokens do not see the whitespace around the string. *)
Lemma split_ws_strip (s : str) : split_ws (strip s) = split_ws s.
Proof.
  destruct (strip_split s) as [l [r [E [Bl Br]]]].
  rewrite E at 2.
  rewrite split_ws_app_blank_l, split_ws_app_blank_r by assumption.
  reflexivity.
Qed.

Lemma split_ws_lstrip (s : str) : split_ws (lstrip s) = split_ws s.
Proof.
  destruct (lstrip_split s) as [l [E Bl]]. rewrite E at 2.
  rewrite split_ws_app_blank_l by assumption. reflexivity.
Qed.

Lemma split_ws_rstrip (s : str) : split_ws (rstrip s) = split_ws s.
Proof.
  destruct (rstrip_split s) as [r [E Br]]. rewrite E at 2.
  rewrite split_ws_app_blank_r by assumption. reflexivity.
Qed.

(** *** [split_ws] against the declarative tokens *)

Lemma ws_tokens_space c (s : str) ts :
  isspace c = true -> ws_tokens s ts -> ws_tokens (c :: s) ts.
Proof.
  intros Hc H. destruct H as [s B | gap w rest ts B Hw Hn Hr Ht].
  - apply ws_tokens_blank. simpl. rewrite Hc. exact B.
  - change (c :: gap ++ w ++ rest) with ((c :: gap) ++ w ++ rest).
    apply ws_tokens_word; try assumption. simpl. rewrite Hc. exact B.
Qed.

Lemma words_from_spec (s : str) :
  let (word, words) := words_from s in
  nospace word = true /\
  exists rest, s = word ++ rest /\
    (rest = [] \/ exists c rest', rest = c :: rest' /\ isspace c = true) /\
    ws_tokens rest words.
Proof.
  induction s as [|c s IH]; simpl.
  - split; [reflexivity|]. exists []. repeat split; [now left|].
    apply ws_tokens_blank. reflexivity.
  - destruct (words_from s) as [word words].
    destruct IH as [Hn [rest [E [Hr Ht]]]].
    destruct (isspace c) eqn:Hc.
    + split; [reflexivity|]. exists (c :: s). repeat split.
      * right. exists c, s. auto.
      * apply ws_tokens_space; [exact Hc|].
        destruct word as [|d word]; simpl.
        -- simpl in E. subst s. exact Ht.
        -- subst s. apply (ws_tokens_word [] (d :: word)); auto. discriminate.
    + split; [simpl; rewrite Hc; exact Hn|].
      exists rest. subst s. auto.
Qed.

Theorem split_ws_tokens (s : str) : ws_tokens s (split_ws s).
Proof.
  unfold split_ws. pose proof (words_from_spec s) as H.
  destruct (words_from s) as [word words].
  destruct H as [Hn [rest [E [Hr Ht]]]].
  destruct word as [|d word]; simpl.
  - simpl in E. subst s. exact Ht.
  - subst s. apply (ws_tokens_word [] (d :: word)); auto. discriminate.
Qed.

Lemma words_from_nospace (w : str) c (rest : str) :
  nospace w = true -> isspace c = true ->
  words_from (w ++ c :: rest) = (w, split_ws rest).
Proof.
  intros Hn Hc. induction w as [|d w IH]; simpl.
  - unfold split_ws. destruct (words_from rest). rewrite Hc. reflexivity.
  - simpl in Hn. apply andb_prop in Hn as [Hd Hn].
    rewrite (IH Hn). apply negb_true_iff in Hd. rewrite Hd. reflexivity.
Qed.

Lemma words_from_nospace_end (w : str) :
  nospace w = true -> words_from w = (w, []).
Proof.
  induction w as [|d w IH]; simpl; [reflexivity|].
  intros Hn. apply andb_prop in Hn as [Hd Hn].
  rewrite (IH Hn). apply negb_true_iff in Hd. rewrite Hd. reflexivity.
Qed.

(** The declarative tokens are unique: they are what [split_ws] computes. *)
Theorem ws_tokens_split_ws (s : str) ts : ws_tokens s ts -> ts = split_ws s.
Proof.
  induction 1 as [s B | gap w rest ts B Hw Hn Hr Ht IH].
  - symmetry. apply split_ws_blank. exact B.
  - rewrite split_ws_app_blank_l by exact B. subst ts.
    destruct w as [|d w]; [congruence|].
    destruct Hr as [-> | [c [rest' [-> Hc]]]].
    + rewrite app_nil_r. unfold split_ws at 2.
      rewrite words_from_nospace_end by exact Hn. reflexivity.
    + unfold split_ws at 2.
      rewrite words_from_nospace by assumption.
      rewrite split_ws_space by exact Hc. reflexivity.
Qed.

(** Every token is non-empty and free of whitespace. *)
Lemma ws_tokens_words (s : str) ts :
  ws_tokens s ts -> Forall (fun w => w <> [] /\ nospace w = true) ts.
Proof. induction 1; constructor; auto. Qed.

End Words.

(* ===================================================================== *)
(** ** The splitter on one string *)
(* ===================================================================== *)

Section SplitString.

Lemma contains_In c (s : str) : contains c s = false -> ~ In c s.
Proof.
  unfold contains. intros H I.
  assert (existsb (N.eqb c) s = true); [|congruence].
  apply existsb_exists. exists c. split; [exact I | apply N.eqb_refl].
Qed.

Lemma contains_app c (a b : str) :
  contains c (a ++ b) = contains c a || contains c b.
Proof. unfold contains. apply existsb_app. Qed.

Lemma parse_str (s : str) :
  parse_shell_command (PyStr s) = Ok (commands_from_str s).
Proof. reflexivity. Qed.

Lemma commands_from_str_kept (s : str) :
  commands_from_str s = map split_ws (kept_commands s).
Proof. reflexivity. Qed.

(** Stripping neither adds nor moves a delimiter. *)
Lemma contains_strip c (s : str) :
  contains c s = false -> contains c (strip s) = false.
Proof.
  destruct (strip_split s) as [l [r [E _]]]. intros H.
  rewrite E, !contains_app in H.
  apply orb_false_iff in H as [_ H]. apply orb_false_iff in H as [H _].
  exact H.
Qed.

Lemma length_pos (s : str) : s <> [] -> (0 <? length s) = true.
Proof. destruct s; [congruence | reflexivity]. Qed.

(** A string without delimiter and with something in it is one command. *)
Lemma commands_from_str_one (s : str) :
  contains semicolon s = false -> blank s = false ->
  commands_from_str s = [split_ws s].
Proof.
  intros Hs Hb. unfold commands_from_str, _get_commands.
  rewrite split_no_sep by (apply contains_In, contains_strip, Hs).
  simpl. rewrite length_pos by (apply strip_not_blank, Hb).
  simpl. rewrite split_ws_strip. reflexivity.
Qed.

(** Two commands around one delimiter: each end is stripped on its outer
    side only, and an end that is left empty is dropped. *)
Lemma commands_from_str_two (a b : str) :
  contains semicolon a = false -> contains semicolon b = false ->
  commands_from_str (a ++ semicolon :: b) = _get_commands [lstrip a; rstrip b].
Proof.
  intros Ha Hb. unfold commands_from_str.
  rewrite strip_app_nonspace by apply semicolon_not_space.
  assert (Hl : ~ In semicolon (lstrip a)).
  { destruct (lstrip_split a) as [g [E _]]. apply contains_In.
    rewrite E, contains_app in Ha. apply orb_false_iff in Ha. tauto. }
  assert (Hr : ~ In semicolon (rstrip b)).
  { destruct (rstrip_split b) as [g [E _]]. apply contains_In.
    rewrite E, contains_app in Hb. apply orb_false_iff in Hb. tauto. }
  rewrite split_app by exact Hl. rewrite split_no_sep by exact Hr.
  reflexivity.
Qed.

Lemma lstrip_not_blank (s : str) : blank s = false -> lstrip s <> [].
Proof. intros H E. apply lstrip_nil_blank in E. congruence. Qed.

Lemma rstrip_not_blank (s : str) : blank s = false -> rstrip s <> [].
Proof. intros H E. apply rstrip_nil_blank in E. congruence. Qed.

(** Rejoining two commands that both have something in them gives back
    their two vectors. *)
Lemma commands_from_str_rejoin (a b : str) :
  contains semicolon a = false -> contains semicolon b = false ->
  blank a = false -> blank b = false ->
  commands_from_str (a ++ semicolon :: b) = [split_ws a; split_ws b].
Proof.
  intros Ha Hb Na Nb. rewrite commands_from_str_two by assumption.
  unfold _get_commands. simpl.
  rewrite (length_pos _ (lstrip_not_blank a Na)).
  rewrite (length_pos _ (rstrip_not_blank b Nb)).
  simpl. rewrite split_ws_lstrip, split_ws_rstrip. reflexivity.
Qed.

(** A kept command is a piece between delimiters of positive length. *)
Lemma kept_commands_spec (s c : str) :
  In c (kept_commands s) -> c <> [] /\ ~ In semicolon c.
Proof.
  unfold kept_commands. intros H. apply filter_In in H as [H L].
  split; [intros ->; discriminate|].
  exact (proj1 (Forall_forall _ _) (split_pieces semicolon (strip s)) c H).
Qed.

(** A vector is empty exactly when its command is blank. *)
Lemma vector_nil_iff (c : str) : split_ws c = [] <-> blank c = true.
Proof. split; [apply split_ws_nil_blank | apply split_ws_blank]. Qed.

Lemma blank_not_In c (gap : str) :
  isspace c = false -> blank gap = true -> ~ In c gap.
Proof.
  intros Hc B I. unfold blank in B.
  rewrite forallb_forall in B. specialize (B c I). congruence.
Qed.

Lemma strip_In c (s : str) : ~ In c s -> ~ In c (lstrip s) /\ ~ In c (rstrip s).
Proof.
  intros H. destruct (lstrip_split s) as [gl [El _]].
  destruct (rstrip_split s) as [gr [Er _]]. split; intros I; apply H.
  - rewrite El. apply in_or_app. now right.
  - rewrite Er. apply in_or_app. now left.
Qed.

(** A non-empty blank piece between two delimiters is kept, and its
    vector is empty. *)
Lemma blank_piece_kept (a gap b : str) :
  contains semicolon a = false -> contains semicolon b = false ->
  blank a = false -> blank b = false ->
  blank gap = true -> gap <> [] ->
  commands_from_str (a ++ semicolon :: gap ++ semicolon :: b)
  = [split_ws a; []; split_ws b].
Proof.
  intros Ha Hb Na Nb Bg Ng. unfold commands_from_str.
  rewrite strip_app_nonspace, rstrip_app_nonspace
    by apply semicolon_not_space.
  rewrite split_app by (apply strip_In, contains_In, Ha).
  rewrite split_app by (apply blank_not_In; [reflexivity | exact Bg]).
  rewrite split_no_sep by (apply strip_In, contains_In, Hb).
  unfold _get_commands. simpl.
  rewrite (length_pos _ (lstrip_not_blank a Na)), (length_pos _ Ng).
  rewrite (length_pos _ (rstrip_not_blank b Nb)). simpl.
  rewrite split_ws_lstrip, split_ws_rstrip, (split_ws_blank gap Bg).
  reflexivity.
Qed.



(** Every token of every vector is non-empty and free of whitespace. *)
Lemma vector_tokens (s : str) :
  Forall (Forall (fun w => w <> [] /\ nospace w = true)) (commands_from_str s).
Proof.
  rewrite commands_from_str_kept. apply Forall_forall. intros v Hv.
  apply in_map_iff in Hv as [c [<- _]].
  apply (ws_tokens_words c). apply split_ws_tokens.
Qed.

End SplitString.

(* ===================================================================== *)
(** ** Claims about the splitter on a string *)
(* ===================================================================== *)

(** C1 (the code departs from the claim). The claim: no vector of
    [parse] is empty, because a command substring that is empty after
    stripping is discarded. The code discards a substring only when its
    length is 0: in ["ls; ;pwd"] the substring between the two delimiters
    is one space, it is kept, and its vector is empty. The same blank
    substring at the end of the string is discarded, by the [strip] of the
    whole string: ["ls; "] gives one vector. *)
Theorem C1_blank_command_gives_empty_vector :
  kept_commands (py "ls; ;pwd") = [py "ls"; py " "; py "pwd"]
  /\ strip (py " ") = []
  /\ parse_shell_command (PyStr (py "ls; ;pwd"))
     = Ok [[py "ls"]; []; [py "pwd"]]
  /\ parse_shell_command (PyStr (py "ls; ")) = Ok [[py "ls"]].
Proof. repeat split. Qed.

(** C3 (the code departs from the claim). The claim: rejoining two kept
    command substrings with [;] and parsing again gives their two
    vectors. In ["a; ;b"] the kept substrings are ["a"], [" "] and ["b"];
    rejoining [" "] and ["b"] and parsing gives the vector of ["b"] alone,
    not the empty vector of [" "] followed by it. *)
Theorem C3_rejoin_blank_command :
  kept_commands (py "a; ;b") = [py "a"; py " "; py "b"]
  /\ parse_shell_command (PyStr (py " " ++ semicolon :: py "b"))
     = Ok [[py "b"]]
  /\ [split_ws (py " "); split_ws (py "b")] = [[]; [py "b"]].
Proof. repeat split. Qed.

(** C4. A string without [;] that is not blank parses to exactly one
    vector: its whitespace-separated tokens, in order, runs of whitespace
    counting as one separator. *)
Theorem C4_single_command (s : str) :
  contains semicolon s = false -> blank s = false ->
  parse_shell_command (PyStr s) = Ok [split_ws s]
  /\ ws_tokens s (split_ws s)
  /\ split_ws s <> [].
Proof.
  intros Hs Hb. rewrite parse_str, commands_from_str_one by assumption.
  split; [reflexivity|]. split; [apply split_ws_tokens|].
  intros E. apply split_ws_nil_blank in E. congruence.
Qed.

Lemma C4_single_command_witness :
  contains semicolon (py "ls   -l") = false
  /\ blank (py "ls   -l") = false
  /\ parse_shell_command (PyStr (py "ls   -l")) = Ok [split_ws (py "ls   -l")]
  /\ split_ws (py "ls   -l") = [py "ls"; py "-l"].
Proof.
  split; [reflexivity|]. split; [reflexivity|].
  split; [|reflexivity].
  apply (C4_single_command (py "ls   -l")); reflexivity.
Defined.



(** C7. A string that is empty or holds only whitespace parses to no
    vector at all. *)
Theorem C7_blank_string (s : str) :
  blank s = true -> parse_shell_command (PyStr s) = Ok [].
Proof.
  intros H. rewrite parse_str. unfold commands_from_str.
  rewrite strip_blank by exact H. reflexivity.
Qed.

Lemma C7_blank_string_witness :
  (blank (py "") = true /\ parse_shell_command (PyStr (py "")) = Ok [])
  /\ (blank (py "   ") = true /\ parse_shell_command (PyStr (py "   ")) = Ok []).
Proof.
  split; (split; [reflexivity|]).
  - apply (C7_blank_string (py "")). reflexivity.
  - apply (C7_blank_string (py "   ")). reflexivity.
Defined.

(* ===================================================================== *)
(** ** Sequences of strings and the type tests *)
(* ===================================================================== *)

Section Sequences.

Lemma extend_with_each_strs (ss : list str) (acc : list (list str)) :
  extend_with_each acc (map PyStr ss)
  = Ok (acc ++ concat (map commands_from_str ss)).
Proof.
  revert acc. induction ss as [|s ss IH]; intros acc; simpl.
  - rewrite app_nil_r. reflexivity.
  - rewrite IH, app_assoc. reflexivity.
Qed.

(** A list whose elements are all [str] is the image of a list of
    strings. *)
Lemma all_str_map (items : list pyobj) :
  forallb isinstance_str items = true ->
  exists ss, items = map PyStr ss.
Proof.
  induction items as [|x items IH]; simpl; intros H.
  - exists []. reflexivity.
  - apply andb_prop in H as [Hx H]. destruct (IH H) as [ss ->].
    destruct x; try discriminate. exists (s :: ss). reflexivity.
Qed.

(** The loop stops at the first element that is not a [str]: it has no
    [strip]. *)
Lemma extend_with_each_non_str (items : list pyobj) (acc : list (list str)) :
  forallb isinstance_str items = false ->
  extend_with_each acc items = Raise (AttributeError "strip").
Proof.
  revert acc. induction items as [|x items IH]; intros acc; simpl.
  - discriminate.
  - destruct x; simpl; try reflexivity. intros H. apply IH. exact H.
Qed.

Lemma extend_with_each_all_str (items : list pyobj) (acc : list (list str)) :
  forallb isinstance_str items = true ->
  exists vs, extend_with_each acc items = Ok vs.
Proof.
  intros H. destruct (all_str_map items H) as [ss ->].
  rewrite extend_with_each_strs. eexists. reflexivity.
Qed.

(** How [parse_shell_command] ends, by the shape of its argument. *)
Lemma parse_cases (x : pyobj) :
  (isinstance_str x = true /\ exists vs, parse_shell_command x = Ok vs)
  \/ (sequence_of_str x = true /\ exists vs, parse_shell_command x = Ok vs)
  \/ (isinstance_List_Tuple x = true /\ sequence_of_str x = false
      /\ parse_shell_command x = Raise (AttributeError "strip"))
  \/ (isinstance_str x = false /\ isinstance_List_Tuple x = false
      /\ parse_shell_command x = Raise invalid_spec_type).
Proof.
  destruct x as [| z | s | items | items].
  - right; right; right. repeat split.
  - right; right; right. repeat split.
  - left. split; [reflexivity|]. eexists. apply parse_str.
  - unfold sequence_of_str, parse_shell_command. simpl.
    destruct (forallb isinstance_str items) eqn:H.
    + right; left. split; [reflexivity|].
      apply extend_with_each_all_str. exact H.
    + right; right; left. repeat split.
      apply extend_with_each_non_str. exact H.
  - unfold sequence_of_str, parse_shell_command. simpl.
    destruct (forallb isinstance_str items) eqn:H.
    + right; left. split; [reflexivity|].
      apply extend_with_each_all_str. exact H.
    + right; right; left. repeat split.
      apply extend_with_each_non_str. exact H.
Qed.

End Sequences.

(** On a list or a tuple of strings, [parse] is the concatenation, in
    order, of what the code computes for each element: the vectors of one
    element all come before those of the next. *)
Lemma parse_sequence_concat (ss : list str) :
  parse_shell_command (PyList (map PyStr ss))
  = Ok (concat (map commands_from_str ss))
  /\ parse_shell_command (PyTuple (map PyStr ss))
     = Ok (concat (map commands_from_str ss)).
Proof.
  split; apply (extend_with_each_strs ss []).
Qed.

(** C5 (the code departs from the claim). The claim: on a sequence of
    strings, [parse] is the concatenation, in order, of the specification's
    [splitString] of each element. The loop does concatenate in order, but
    what it computes for an element is not that [splitString]: in
    [["a; ;b", "c"]] the first element has a piece of one space between two
    delimiters, which the code keeps, so that an empty vector stands
    between those of ["a"] and ["b"]. The example of the claim,
    [["a;b", "c"]], has no such piece and comes out as stated. *)
Theorem C5_sequence_blank_piece :
  parse_shell_command (PyList [PyStr (py "a; ;b"); PyStr (py "c")])
  = Ok [[py "a"]; []; [py "b"]; [py "c"]]
  /\ concat (map spec_splitString [py "a; ;b"; py "c"])
     = [[py "a"]; [py "b"]; [py "c"]]
  /\ parse_shell_command (PyList [PyStr (py "a;b"); PyStr (py "c")])
     = Ok (concat (map spec_splitString [py "a;b"; py "c"]))
  /\ concat (map spec_splitString [py "a;b"; py "c"])
     = [[py "a"]; [py "b"]; [py "c"]].
Proof. repeat split. Qed.

(** C9. The type test looks at the outer object only: a list or a tuple
    with an element that is not a string fails with [AttributeError], from
    the call of [strip] on that element, and not with the [TypeError] of
    an invalid specification. *)
Theorem C9_non_str_element (items : list pyobj) :
  forallb isinstance_str items = false ->
  parse_shell_command (PyList items) = Raise (AttributeError "strip")
  /\ parse_shell_command (PyTuple items) = Raise (AttributeError "strip")
  /\ Raise (A := list (list str)) (AttributeError "strip")
     <> Raise invalid_spec_type.
Proof.
  intros H. split; [|split].
  - apply (extend_with_each_non_str items [] H).
  - apply (extend_with_each_non_str items [] H).
  - discriminate.
Qed.

Lemma C9_non_str_element_witness :
  forallb isinstance_str [PyList [PyStr (py "ls"); PyStr (py "-l")]] = false
  /\ parse_shell_command (PyList [PyList [PyStr (py "ls"); PyStr (py "-l")]])
     = Raise (AttributeError "strip").
Proof.
  split; [reflexivity|].
  apply (C9_non_str_element [PyList [PyStr (py "ls"); PyStr (py "-l")]]).
  reflexivity.
Defined.

(** C10, counterexample. The claim ends: only inputs that are neither a
    string nor a sequence make [parse] fail. The list [[42]] is a
    sequence, and [parse] fails on it. *)
Lemma C10_counterexample :
  isinstance_List_Tuple (PyList [PyInt 42]) = true
  /\ parse_shell_command (PyList [PyInt 42]) = Raise (AttributeError "strip").
Proof. split; reflexivity. Qed.

(** C10, amended. [parse] is total on strings: every string gives a
    sequence of vectors and no error. An input on which [parse] fails is
    neither a string nor a list or tuple of strings only. *)
Theorem C10_total_on_strings :
  (forall s : str, exists vs, parse_shell_command (PyStr s) = Ok vs)
  /\ (forall (x : pyobj) (e : exn),
         parse_shell_command x = Raise e ->
         isinstance_str x = false /\ sequence_of_str x = false).
Proof.
  split.
  - intros s. exists (commands_from_str s). apply parse_str.
  - intros x e H.
    destruct (parse_cases x) as [[_ [vs E]] | [[_ [vs E]] | [[Hl [Hs _]] | [Hn [Hl _]]]]].
    + congruence.
    + congruence.
    + split; [|exact Hs]. destruct x; try discriminate; reflexivity.
    + split; [exact Hn|]. unfold sequence_of_str. rewrite Hl. reflexivity.
Qed.

Lemma C10_total_on_strings_witness :
  parse_shell_command (PyTuple [PyStr (py "ls"); PyNone])
  = Raise (AttributeError "strip")
  /\ isinstance_str (PyTuple [PyStr (py "ls"); PyNone]) = false
  /\ sequence_of_str (PyTuple [PyStr (py "ls"); PyNone]) = false.
Proof.
  split; [reflexivity|].
  apply (proj2 C10_total_on_strings
           (PyTuple [PyStr (py "ls"); PyNone]) (AttributeError "strip")).
  reflexivity.
Defined.

(* ===================================================================== *)
(** ** The runner *)
(* ===================================================================== *)

Section RunnerFacts.
Variable world : Type.
Variable popen : Subprocess.launcher world.
Variable kwargs : Subprocess.kwargs.

(** An error of [parse_shell_command] leaves [subprocess_run] before the
    loop: the state, and with it the record of launches, is untouched. *)
Lemma subprocess_run_parse_error (commands : pyobj) e st :
  parse_shell_command commands = Raise e ->
  subprocess_run world popen commands kwargs st = (Raise e, st).
Proof.
  intros H. unfold subprocess_run, Subprocess.bindM, Subprocess.lift.
  rewrite H. reflexivity.
Qed.

Lemma subprocess_run_parsed (commands : pyobj) vs st :
  parse_shell_command commands = Ok vs ->
  subprocess_run world popen commands kwargs st
  = (_ <~ run_each world popen vs kwargs ;; Subprocess.ret ShellUtil_class) st.
Proof.
  intros H. unfold subprocess_run, Subprocess.bindM at 1, Subprocess.lift.
  rewrite H. reflexivity.
Qed.

(** One call of [subprocess.run] records exactly its argument vector. *)
Lemma run_launched argv st :
  Subprocess.launched (snd (Subprocess.run popen argv kwargs st))
  = Subprocess.launched st ++ [argv].
Proof.
  unfold Subprocess.run.
  destruct (popen argv kwargs (Subprocess.os st)) as [[rc | e] w]; simpl.
  - destruct (Subprocess.check kwargs && negb (rc =? 0)%Z); reflexivity.
  - reflexivity.
Qed.

(** [subprocess.run] raises in two cases only: [Popen] raised, or the
    child exited with a non-zero status under [check=True]. *)
Lemma run_raises argv st e :
  fst (Subprocess.run popen argv kwargs st) = Raise e ->
  fst (popen argv kwargs (Subprocess.os st)) = Subprocess.PopenRaised e
  \/ exists rc,
       fst (popen argv kwargs (Subprocess.os st)) = Subprocess.Exited rc
       /\ Subprocess.check kwargs = true /\ rc <> 0%Z
       /\ e = CalledProcessError rc.
Proof.
  unfold Subprocess.run.
  destruct (popen argv kwargs (Subprocess.os st)) as [[rc | e'] w]; simpl.
  - destruct (Subprocess.check kwargs) eqn:Hc; simpl; [|discriminate].
    destruct (Z.eqb_spec rc 0) as [->|Hrc]; simpl; [discriminate|].
    intros H. injection H as <-. right. exists rc. auto.
  - intros H. injection H as <-. now left.
Qed.

(** Without [check=True], a child that exits never makes
    [subprocess.run] raise, whatever its status. *)
Lemma run_unchecked argv st rc w :
  Subprocess.check kwargs = false ->
  popen argv kwargs (Subprocess.os st) = (Subprocess.Exited rc, w) ->
  Subprocess.run popen argv kwargs st
  = (Ok {| Subprocess.args := argv; Subprocess.returncode := rc |},
     {| Subprocess.os := w;
        Subprocess.launched := Subprocess.launched st ++ [argv] |}).
Proof.
  intros Hc Hp. unfold Subprocess.run. rewrite Hp, Hc. reflexivity.
Qed.

(** The loop launches a prefix of its vectors, in order: all of them
    when it returns, and up to the one that raised otherwise. *)
Lemma run_each_launched vs : forall st,
  exists done rest,
    vs = done ++ rest
    /\ Subprocess.launched (snd (run_each world popen vs kwargs st))
       = Subprocess.launched st ++ done
    /\ (rest = [] \/ exists e, fst (run_each world popen vs kwargs st) = Raise e).
Proof.
  induction vs as [|v vs IH]; intros st.
  - exists [], []. simpl. rewrite app_nil_r. repeat split. now left.
  - simpl. unfold Subprocess.bindM.
    pose proof (run_launched v st) as L.
    destruct (Subprocess.run popen v kwargs st) as [[cp | e] st1] eqn:R;
      simpl in L.
    + destruct (IH st1) as [done [rest [E [Ld Hr]]]].
      exists (v :: done), rest. subst vs. rewrite Ld, L, <- app_assoc.
      repeat split. exact Hr.
    + exists [v], vs. simpl. rewrite L. repeat split.
      right. exists e. reflexivity.
Qed.

(** When the call for the first vector raises, the loop is over. *)
Lemma run_each_first_raises v vs st e :
  fst (Subprocess.run popen v kwargs st) = Raise e ->
  run_each world popen (v :: vs) kwargs st
  = (Raise e, snd (Subprocess.run popen v kwargs st)).
Proof.
  intros H. simpl. unfold Subprocess.bindM.
  destruct (Subprocess.run popen v kwargs st) as [[cp | e'] st1];
    simpl in H; [discriminate|].
  injection H as ->. reflexivity.
Qed.

End RunnerFacts.

(** What the empty vector of a blank command does to a run, on the
    concrete operating system: [ls] is launched, then [subprocess.run([])]
    raises and [pwd] is never reached. *)
Example run_blank_command :
  subprocess_run unit demo_popen (PyStr (py "ls; ;pwd")) Subprocess.no_kwargs fresh
  = (Raise (IndexError "list index out of range"),
     {| Subprocess.os := tt; Subprocess.launched := [[py "ls"]; []] |}).
Proof. reflexivity. Qed.

(** C8, counterexample. The claim: every input that is neither a string
    nor a sequence of strings fails with the [TypeError] of an invalid
    specification. The list [[42]] is neither, and fails with
    [AttributeError]. *)
Lemma C8_counterexample :
  isinstance_str (PyList [PyInt 42]) = false
  /\ sequence_of_str (PyList [PyInt 42]) = false
  /\ parse_shell_command (PyList [PyInt 42]) = Raise (AttributeError "strip")
  /\ parse_shell_command (PyList [PyInt 42]) <> Raise invalid_spec_type.
Proof. repeat split. discriminate. Qed.

(** C8, amended. Every input that is neither a string nor a list or
    tuple fails with the [TypeError] of an invalid specification, and
    [subprocess_run] surfaces it before any child process is launched. *)
Theorem C8_invalid_spec_type (x : pyobj) :
  isinstance_str x = false -> isinstance_List_Tuple x = false ->
  parse_shell_command x = Raise invalid_spec_type
  /\ forall world (popen : Subprocess.launcher world) kwargs st,
       subprocess_run world popen x kwargs st = (Raise invalid_spec_type, st).
Proof.
  intros Hs Hl.
  assert (E : parse_shell_command x = Raise invalid_spec_type).
  { unfold parse_shell_command. rewrite Hs, Hl. reflexivity. }
  split; [exact E|]. intros world popen kwargs st.
  apply subprocess_run_parse_error. exact E.
Qed.

Lemma C8_invalid_spec_type_witness :
  isinstance_str (PyInt 42) = false
  /\ isinstance_List_Tuple (PyInt 42) = false
  /\ parse_shell_command (PyInt 42) = Raise invalid_spec_type
  /\ subprocess_run unit demo_popen (PyInt 42) Subprocess.no_kwargs fresh
     = (Raise invalid_spec_type, fresh).
Proof.
  split; [reflexivity|]. split; [reflexivity|].
  destruct (C8_invalid_spec_type (PyInt 42) eq_refl eq_refl) as [E R].
  split; [exact E | apply R].
Defined.

(** C2, counterexample. The claim: in [run("false; echo hi", {})] the
    non-zero exit of [false] is reported as a failure and [echo hi] is not
    launched. With no [check] among the options [subprocess.run] returns
    normally for [false], the loop goes on, [echo hi] is launched and the
    call returns the class. *)
Lemma C2_counterexample :
  demo_popen [py "false"] Subprocess.no_kwargs tt = (Subprocess.Exited 1, tt)
  /\ subprocess_run unit demo_popen (PyStr (py "false; echo hi"))
       Subprocess.no_kwargs fresh
     = (Ok ShellUtil_class,
        {| Subprocess.os := tt;
           Subprocess.launched := [[py "false"]; [py "echo"; py "hi"]] |}).
Proof. split; reflexivity. Qed.

(** C2, amended. When [subprocess.run] raises for the first parsed
    command (the program cannot be started, or it exits non-zero and the
    caller passed [check=True]), the exception reaches the caller and no
    later vector is launched. When the first command merely exits, with
    any status, and [check] is not set, nothing is raised and the call
    goes on with the remaining vectors. *)
Theorem C2_first_command_raises
    (world : Type) (popen : Subprocess.launcher world)
    (kwargs : Subprocess.kwargs) (commands : pyobj)
    (v : list str) (vs : list (list str)) (st : Subprocess.state world) :
  parse_shell_command commands = Ok (v :: vs) ->
  (forall e,
      fst (Subprocess.run popen v kwargs st) = Raise e ->
      fst (subprocess_run world popen commands kwargs st) = Raise e
      /\ Subprocess.launched (snd (subprocess_run world popen commands kwargs st))
         = Subprocess.launched st ++ [v])
  /\ (forall rc w,
         Subprocess.check kwargs = false ->
         popen v kwargs (Subprocess.os st) = (Subprocess.Exited rc, w) ->
         subprocess_run world popen commands kwargs st
         = (_ <~ run_each world popen vs kwargs ;; Subprocess.ret ShellUtil_class)
             {| Subprocess.os := w;
                Subprocess.launched := Subprocess.launched st ++ [v] |}).
Proof.
  intros P. split.
  - intros e H.
    assert (E : subprocess_run world popen commands kwargs st
                = (Raise e, snd (Subprocess.run popen v kwargs st))).
    { rewrite (subprocess_run_parsed _ popen kwargs commands _ st P).
      unfold Subprocess.bindM at 1.
      rewrite (run_each_first_raises _ popen kwargs v vs st e H).
      reflexivity. }
    rewrite E. simpl. split; [reflexivity | apply run_launched].
  - intros rc w Hc Hp.
    rewrite (subprocess_run_parsed _ popen kwargs commands _ st P).
    unfold Subprocess.bindM at 1. simpl run_each.
    unfold Subprocess.bindM at 1.
    rewrite (run_unchecked _ popen kwargs v st rc w Hc Hp). reflexivity.
Qed.

Lemma C2_first_command_raises_witness :
  parse_shell_command (PyStr (py "nosuchprogram; echo hi"))
  = Ok [[py "nosuchprogram"]; [py "echo"; py "hi"]]
  /\ fst (Subprocess.run demo_popen [py "nosuchprogram"] Subprocess.no_kwargs fresh)
     = Raise (FileNotFoundError "nosuchprogram")
  /\ fst (subprocess_run unit demo_popen (PyStr (py "nosuchprogram; echo hi"))
            Subprocess.no_kwargs fresh)
     = Raise (FileNotFoundError "nosuchprogram")
  /\ Subprocess.launched
       (snd (subprocess_run unit demo_popen (PyStr (py "nosuchprogram; echo hi"))
               Subprocess.no_kwargs fresh))
     = [] ++ [[py "nosuchprogram"]].
Proof.
  split; [reflexivity|]. split; [reflexivity|].
  apply (proj1 (C2_first_command_raises unit demo_popen Subprocess.no_kwargs
                  (PyStr (py "nosuchprogram; echo hi"))
                  [py "nosuchprogram"] [[py "echo"; py "hi"]] fresh eq_refl)
           (FileNotFoundError "nosuchprogram")).
  reflexivity.
Defined.

(* ===================================================================== *)
(** ** Further properties of the splitter *)
(* ===================================================================== *)

Section SplitMore.
Variable sep : char.

(** The pieces of a string around a delimiter are the pieces before it
    followed by the pieces after it. *)
Lemma split_app_sep (x y : str) :
  split sep (x ++ sep :: y) = split sep x ++ split sep y.
Proof.
  induction x as [|c x IH].
  - apply split_cons_sep.
  - unfold split in *. simpl.
    destruct (split_from sep (x ++ sep :: y)) as [p ps].
    destruct (split_from sep x) as [px psx].
    injection IH as -> ->.
    destruct (c =? sep)%N; reflexivity.
Qed.

Lemma length_split (s : str) : length (split sep s) = S (count sep s).
Proof.
  unfold split, count. induction s as [|c s IH]; simpl; [reflexivity|].
  destruct (split_from sep s) as [p ps]. simpl in IH.
  destruct (N.eqb_spec c sep) as [->|Hne].
  - destruct (N.eq_dec sep sep); [|congruence]. simpl. rewrite IH. reflexivity.
  - destruct (N.eq_dec c sep); [congruence|]. exact IH.
Qed.

Lemma concat_split (s : str) :
  concat (split sep s) = filter (fun c => negb (c =? sep)%N) s.
Proof.
  unfold split. induction s as [|c s IH]; simpl; [reflexivity|].
  destruct (split_from sep s) as [p ps]. simpl in IH.
  destruct (c =? sep)%N; simpl; [exact IH | rewrite <- IH; reflexivity].
Qed.

End SplitMore.

Section StripMore.

Lemma lstrip_app_not_blank (s r : str) :
  blank s = false -> lstrip (s ++ r) = lstrip s ++ r.
Proof.
  induction s as [|c s IH]; simpl; [discriminate|].
  destruct (isspace c); simpl; [exact IH | reflexivity].
Qed.

(** Whitespace around a string does not survive [strip]. *)
Lemma strip_app_blank (l s r : str) :
  blank l = true -> blank r = true -> strip (l ++ s ++ r) = strip s.
Proof.
  intros Bl Br. unfold strip. rewrite lstrip_app_blank by exact Bl.
  destruct (blank s) eqn:Bs.
  - rewrite (lstrip_blank s Bs), lstrip_blank; [reflexivity|].
    rewrite blank_app, Bs, Br. reflexivity.
  - rewrite lstrip_app_not_blank by exact Bs.
    apply rstrip_app_blank. exact Br.
Qed.

Lemma filter_blank (f : char -> bool) (gap : str) :
  (forall c, isspace c = true -> f c = false) ->
  blank gap = true -> filter f gap = [].
Proof.
  intros Hf. induction gap as [|c gap IH]; simpl; [reflexivity|].
  destruct (isspace c) eqn:Hc; simpl; [|discriminate].
  intros B. rewrite (Hf c Hc). exact (IH B).
Qed.

(** [strip] removes whitespace only. *)
Lemma filter_strip (f : char -> bool) (s : str) :
  (forall c, isspace c = true -> f c = false) ->
  filter f (strip s) = filter f s.
Proof.
  intros Hf. destruct (strip_split s) as [l [r [E [Bl Br]]]].
  rewrite E at 2. rewrite !filter_app.
  rewrite (filter_blank f l Hf Bl), (filter_blank f r Hf Br), app_nil_r.
  reflexivity.
Qed.

Lemma count_blank c (gap : str) :
  isspace c = false -> blank gap = true -> count c gap = 0.
Proof.
  intros Hc B. apply count_occ_not_In. apply blank_not_In; assumption.
Qed.

Lemma count_strip c (s : str) :
  isspace c = false -> count c (strip s) = count c s.
Proof.
  intros Hc. destruct (strip_split s) as [l [r [E [Bl Br]]]].
  rewrite E at 2. unfold count. rewrite !count_occ_app.
  pose proof (count_blank c l Hc Bl) as Hl.
  pose proof (count_blank c r Hc Br) as Hr. unfold count in Hl, Hr.
  unfold str, char in *. rewrite Hl, Hr, Nat.add_0_r. reflexivity.
Qed.

(** A string that already ends where [rstrip] would cut it keeps doing so
    after [lstrip]. *)
Lemma rstrip_lstrip_fixed (a : str) :
  rstrip a = a -> rstrip (lstrip a) = lstrip a.
Proof.
  intros H. destruct (lstrip_split a) as [g [E Bg]].
  destruct (lstrip a) as [|c r] eqn:L; [reflexivity|].
  assert (Hc : isspace c = false) by exact (lstrip_head a c r L).
  rewrite rstrip_cons_nonspace by exact Hc. f_equal.
  rewrite E in H. rewrite rstrip_app_nonspace in H by exact Hc.
  apply app_inv_head in H. injection H as H. exact H.
Qed.

End StripMore.

Section WordsMore.

Lemma concat_push (w : str) (ws : list str) : concat (push w ws) = w ++ concat ws.
Proof. destruct w; reflexivity. Qed.

(** The tokens of a string, put end to end, are its non-whitespace
    characters. *)
Lemma concat_split_ws (s : str) :
  concat (split_ws s) = filter (fun c => negb (isspace c)) s.
Proof.
  unfold split_ws. induction s as [|c s IH]; simpl; [reflexivity|].
  destruct (words_from s) as [w ws]. rewrite concat_push in IH.
  destruct (isspace c); simpl.
  - rewrite concat_push. exact IH.
  - rewrite <- IH. reflexivity.
Qed.

Lemma token_chars (s w : str) c : In w (split_ws s) -> In c w -> In c s.
Proof.
  intros Hw Hc.
  assert (I : In c (concat (split_ws s))) by (apply in_concat; eauto).
  rewrite concat_split_ws in I. apply filter_In in I. tauto.
Qed.

End WordsMore.

Section CommandsMore.

Lemma _get_commands_app (xs ys : list str) :
  _get_commands (xs ++ ys) = _get_commands xs ++ _get_commands ys.
Proof. unfold _get_commands. rewrite filter_app, map_app. reflexivity. Qed.

Lemma _get_commands_cons (c : str) (cs : list str) :
  c <> [] -> _get_commands (c :: cs) = split_ws c :: _get_commands cs.
Proof.
  intros H. unfold _get_commands. simpl. rewrite (length_pos c H). reflexivity.
Qed.

Lemma not_In_contains c (s : str) : ~ In c s -> contains c s = false.
Proof.
  intros H. unfold contains. destruct (existsb (N.eqb c) s) eqn:E; [|reflexivity].
  apply existsb_exists in E as [x [I Hx]]. apply N.eqb_eq in Hx. subst x. tauto.
Qed.

Lemma not_blank_not_nil (c : str) : blank c = false -> c <> [].
Proof. intros H ->. discriminate. Qed.

(** The commands of a joined list, once the left end has been dealt
    with: only the right end is still to strip. *)
Lemma rstrip_join_commands (cs : list str) :
  cs <> [] ->
  forallb (fun c => negb (contains semicolon c) && negb (blank c)) cs = true ->
  _get_commands (split semicolon (rstrip (join semicolon cs)))
  = map split_ws cs.
Proof.
  induction cs as [|c cs IH]; [congruence|]. intros _ H.
  simpl in H. apply andb_prop in H as [Hc H].
  apply andb_prop in Hc as [Hs Hb].
  apply negb_true_iff in Hs. apply negb_true_iff in Hb.
  destruct cs as [|c' cs].
  - simpl. rewrite split_no_sep by (apply strip_In, contains_In, Hs).
    rewrite _get_commands_cons by (apply rstrip_not_blank, Hb).
    rewrite split_ws_rstrip. reflexivity.
  - change (join semicolon (c :: c' :: cs))
      with (c ++ semicolon :: join semicolon (c' :: cs)).
    rewrite rstrip_app_nonspace by apply semicolon_not_space.
    rewrite split_app by (apply contains_In, Hs).
    rewrite _get_commands_cons by (apply not_blank_not_nil, Hb).
    rewrite IH by (discriminate || exact H). reflexivity.
Qed.

Lemma commands_from_str_join (cs : list str) :
  forallb (fun c => negb (contains semicolon c) && negb (blank c)) cs = true ->
  commands_from_str (join semicolon cs) = map split_ws cs.
Proof.
  destruct cs as [|c [|c' cs]]; intros H.
  - reflexivity.
  - simpl in H. rewrite andb_true_r in H. apply andb_prop in H as [Hs Hb].
    apply negb_true_iff in Hs. apply negb_true_iff in Hb.
    simpl. apply commands_from_str_one; assumption.
  - change (forallb (fun c => negb (contains semicolon c) && negb (blank c))
              (c :: c' :: cs))
      with (negb (contains semicolon c) && negb (blank c)
            && forallb (fun c => negb (contains semicolon c) && negb (blank c))
                 (c' :: cs)) in H.
    apply andb_prop in H as [Hc H]. apply andb_prop in Hc as [Hs Hb].
    apply negb_true_iff in Hs. apply negb_true_iff in Hb.
    change (join semicolon (c :: c' :: cs))
      with (c ++ semicolon :: join semicolon (c' :: cs)).
    unfold commands_from_str. rewrite strip_app_nonspace by apply semicolon_not_space.
    rewrite split_app by (apply strip_In, contains_In, Hs).
    rewrite _get_commands_cons by (apply lstrip_not_blank, Hb).
    rewrite split_ws_lstrip.
    rewrite rstrip_join_commands by (discriminate || exact H). reflexivity.
Qed.

Lemma concat_kept (pieces : list str) :
  concat (filter (fun command => 0 <? length command) pieces) = concat pieces.
Proof.
  induction pieces as [|[|c p] pieces IH]; simpl; [reflexivity | exact IH |].
  rewrite IH. reflexivity.
Qed.

Lemma concat_vectors (commands : list str) :
  concat (concat (map split_ws commands))
  = filter (fun c => negb (isspace c)) (concat commands).
Proof.
  induction commands as [|c commands IH]; simpl; [reflexivity|].
  rewrite concat_app, filter_app, IH, concat_split_ws. reflexivity.
Qed.

Lemma filter_both (f g : char -> bool) (s : str) :
  filter f (filter g s) = filter (fun c => f c && g c) s.
Proof.
  induction s as [|c s IH]; simpl; [reflexivity|].
  destruct (g c); simpl.
  - rewrite andb_true_r. destruct (f c); rewrite IH; reflexivity.
  - rewrite andb_false_r. exact IH.
Qed.

Lemma in_token_space c : isspace c = true -> in_token c = false.
Proof. intros H. unfold in_token. rewrite H. reflexivity. Qed.

Lemma commands_from_str_chars (s : str) :
  concat (concat (commands_from_str s)) = filter in_token s.
Proof.
  rewrite commands_from_str_kept, concat_vectors. unfold kept_commands.
  rewrite concat_kept, concat_split, filter_both.
  apply (filter_strip in_token s in_token_space).
Qed.

Lemma commands_from_str_tokens (s : str) :
  Forall (Forall (fun w => w <> [] /\ nospace w = true
                           /\ contains semicolon w = false))
    (commands_from_str s).
Proof.
  rewrite commands_from_str_kept. apply Forall_forall. intros v Hv.
  apply in_map_iff in Hv as [c [<- Hc]].
  apply kept_commands_spec in Hc as [_ Hc].
  pose proof (ws_tokens_words c _ (split_ws_tokens c)) as F.
  rewrite Forall_forall in F. apply Forall_forall. intros w Hw.
  destruct (F w Hw) as [F1 F2]. repeat split; try assumption.
  apply not_In_contains. intros I. apply Hc.
  exact (token_chars c w semicolon Hw I).
Qed.

End CommandsMore.

(** X1. Joining commands with [;] and parsing gives one vector per
    command, in order: for commands without [;] that each hold a
    non-whitespace character, [parse(";".join(cs))] is
    [[c.split() for c in cs]]. *)
Theorem X1_parse_join (cs : list str) :
  forallb (fun c => negb (contains semicolon c) && negb (blank c)) cs = true ->
  parse_shell_command (PyStr (join semicolon cs)) = Ok (map split_ws cs).
Proof.
  intros H. rewrite parse_str, commands_from_str_join by exact H. reflexivity.
Qed.

Lemma X1_parse_join_witness :
  forallb (fun c => negb (contains semicolon c) && negb (blank c))
    [py "python3 test.py"; py " cd  teemo "; py "pwd"] = true
  /\ join semicolon [py "python3 test.py"; py " cd  teemo "; py "pwd"]
     = py "python3 test.py; cd  teemo ;pwd"
  /\ parse_shell_command
       (PyStr (join semicolon [py "python3 test.py"; py " cd  teemo "; py "pwd"]))
     = Ok (map split_ws [py "python3 test.py"; py " cd  teemo "; py "pwd"])
  /\ map split_ws [py "python3 test.py"; py " cd  teemo "; py "pwd"]
     = [[py "python3"; py "test.py"]; [py "cd"; py "teemo"]; [py "pwd"]].
Proof.
  split; [reflexivity|]. split; [reflexivity|]. split; [|reflexivity].
  apply (X1_parse_join [py "python3 test.py"; py " cd  teemo "; py "pwd"]).
  reflexivity.
Defined.

(** X2. Parsing a string neither loses, invents nor reorders characters:
    the tokens of all vectors, put end to end, are exactly the characters
    of the input that are neither whitespace nor [;], in their order. *)
Theorem X2_characters_preserved (s : str) :
  exists vs,
    parse_shell_command (PyStr s) = Ok vs
    /\ concat (concat vs) = filter in_token s.
Proof.
  exists (commands_from_str s). split; [apply parse_str | apply commands_from_str_chars].
Qed.

(** X3. Whatever [parse] returns, for a string or for a sequence, every
    token of every vector is non-empty, holds no whitespace and holds no
    [;]. *)
Theorem X3_tokens_clean (x : pyobj) (vs : list (list str)) :
  parse_shell_command x = Ok vs ->
  Forall (Forall (fun w => w <> [] /\ nospace w = true
                           /\ contains semicolon w = false)) vs.
Proof.
  intros H.
  assert (Seq : forall items,
             extend_with_each [] items = Ok vs ->
             Forall (Forall (fun w => w <> [] /\ nospace w = true
                                      /\ contains semicolon w = false)) vs).
  { intros items E.
    destruct (forallb isinstance_str items) eqn:A.
    - destruct (all_str_map items A) as [ss ->].
      rewrite extend_with_each_strs in E. injection E as <-. simpl.
      apply Forall_concat. apply Forall_forall. intros vss Hv.
      apply in_map_iff in Hv as [s [<- _]]. apply commands_from_str_tokens.
    - rewrite (extend_with_each_non_str items [] A) in E. discriminate. }
  destruct x as [| z | s | items | items]; try discriminate.
  - rewrite parse_str in H. injection H as <-. apply commands_from_str_tokens.
  - exact (Seq items H).
  - exact (Seq items H).
Qed.

Lemma X3_tokens_clean_witness :
  parse_shell_command (PyTuple [PyStr (py "ls -l; pwd;"); PyStr (py " cd teemo")])
  = Ok [[py "ls"; py "-l"]; [py "pwd"]; [py "cd"; py "teemo"]]
  /\ Forall (Forall (fun w => w <> [] /\ nospace w = true
                              /\ contains semicolon w = false))
       [[py "ls"; py "-l"]; [py "pwd"]; [py "cd"; py "teemo"]].
Proof.
  split; [reflexivity|].
  apply (X3_tokens_clean
           (PyTuple [PyStr (py "ls -l; pwd;"); PyStr (py " cd teemo")])).
  reflexivity.
Defined.

(** X4. A string with [n] delimiters parses to at most [n + 1] vectors. *)
Theorem X4_vector_count (s : str) :
  exists vs,
    parse_shell_command (PyStr s) = Ok vs
    /\ length vs <= S (count semicolon s).
Proof.
  exists (commands_from_str s). split; [apply parse_str|].
  unfold commands_from_str, _get_commands. rewrite length_map.
  rewrite <- (count_strip semicolon s semicolon_not_space).
  rewrite <- length_split. apply filter_length_le.
Qed.

(** X5. Whitespace before and after the whole string changes nothing. *)
Theorem X5_outer_whitespace (l s r : str) :
  blank l = true -> blank r = true ->
  parse_shell_command (PyStr (l ++ s ++ r)) = parse_shell_command (PyStr s).
Proof.
  intros Bl Br. rewrite !parse_str. unfold commands_from_str.
  rewrite strip_app_blank by assumption. reflexivity.
Qed.

Lemma X5_outer_whitespace_witness :
  blank (py "  ") = true /\ blank (py " ") = true
  /\ parse_shell_command (PyStr (py "  " ++ py "ls -l; pwd;" ++ py " "))
     = parse_shell_command (PyStr (py "ls -l; pwd;")).
Proof.
  split; [reflexivity|]. split; [reflexivity|].
  apply (X5_outer_whitespace (py "  ") (py "ls -l; pwd;") (py " "));
    reflexivity.
Defined.

(** X6. The result for a string holds an empty vector exactly when one of
    the pieces between delimiters of the stripped string is non-empty and
    all whitespace. *)
Theorem X6_empty_vector_iff (s : str) :
  exists vs,
    parse_shell_command (PyStr s) = Ok vs
    /\ (In [] vs <->
        exists piece, In piece (split semicolon (strip s))
                      /\ piece <> [] /\ blank piece = true).
Proof.
  exists (commands_from_str s). split; [apply parse_str|].
  rewrite commands_from_str_kept. unfold kept_commands. split.
  - intros H. apply in_map_iff in H as [c [E H]].
    apply filter_In in H as [H L]. exists c. repeat split.
    + exact H.
    + intros ->. discriminate.
    + apply split_ws_nil_blank. exact E.
  - intros [c [H [N B]]]. apply in_map_iff. exists c. split.
    + apply split_ws_blank. exact B.
    + apply filter_In. split; [exact H | apply length_pos; exact N].
Qed.

Section SequencesMore.

Lemma commands_from_str_around_delimiter (a b : str) :
  rstrip a = a -> lstrip b = b ->
  commands_from_str (a ++ semicolon :: b) = commands_from_str a ++ commands_from_str b.
Proof.
  intros Ha Hb. unfold commands_from_str.
  rewrite strip_app_nonspace by apply semicolon_not_space.
  rewrite split_app_sep, _get_commands_app.
  unfold strip. rewrite (rstrip_lstrip_fixed a Ha), Hb. reflexivity.
Qed.

(** The accumulator of the loop only ever grows at its end. *)
Lemma extend_with_each_acc (items : list pyobj) : forall acc,
  extend_with_each acc items
  = (more <- extend_with_each [] items ;; Ok (acc ++ more)).
Proof.
  induction items as [|x items IH]; intros acc; simpl.
  - rewrite app_nil_r. reflexivity.
  - destruct (_get_commands_from_str x) as [more | e]; simpl; [|reflexivity].
    rewrite (IH (acc ++ more)), (IH more).
    destruct (extend_with_each [] items) as [r | e]; simpl; [|reflexivity].
    rewrite app_assoc. reflexivity.
Qed.

Lemma extend_with_each_app (xs ys : list pyobj) : forall acc,
  extend_with_each acc (xs ++ ys)
  = (mid <- extend_with_each acc xs ;; extend_with_each mid ys).
Proof.
  induction xs as [|x xs IH]; intros acc; simpl; [reflexivity|].
  destruct (_get_commands_from_str x) as [more | e]; simpl; [|reflexivity].
  apply IH.
Qed.

Lemma concat_commands_from_str_blank (ss : list str) :
  forallb blank ss = true -> concat (map commands_from_str ss) = [].
Proof.
  induction ss as [|s ss IH]; simpl; [reflexivity|].
  intros H. apply andb_prop in H as [Hs H]. rewrite (IH H), app_nil_r.
  unfold commands_from_str. rewrite strip_blank by exact Hs. reflexivity.
Qed.

End SequencesMore.

(** X7. A delimiter inside one string acts like the boundary between two
    elements of a list: when [a] does not end and [b] does not start with
    whitespace, [parse(a + ";" + b)] equals [parse([a, b])]. *)
Theorem X7_delimiter_as_boundary (a b : str) :
  rstrip a = a -> lstrip b = b ->
  parse_shell_command (PyStr (a ++ semicolon :: b))
  = parse_shell_command (PyList [PyStr a; PyStr b]).
Proof.
  intros Ha Hb. rewrite parse_str, commands_from_str_around_delimiter by assumption.
  change (parse_shell_command (PyList [PyStr a; PyStr b]))
    with (extend_with_each [] (map PyStr [a; b])).
  rewrite extend_with_each_strs. simpl. rewrite app_nil_r. reflexivity.
Qed.

Lemma X7_delimiter_as_boundary_witness :
  rstrip (py "ls -l; pwd") = py "ls -l; pwd"
  /\ lstrip (py "cd teemo; ") = py "cd teemo; "
  /\ parse_shell_command (PyStr (py "ls -l; pwd" ++ semicolon :: py "cd teemo; "))
     = parse_shell_command (PyList [PyStr (py "ls -l; pwd"); PyStr (py "cd teemo; ")]).
Proof.
  split; [reflexivity|]. split; [reflexivity|].
  apply (X7_delimiter_as_boundary (py "ls -l; pwd") (py "cd teemo; "));
    reflexivity.
Defined.

(** X8. Parsing the concatenation of two lists is parsing the first, then
    the second, and appending the results; an error of the first list is
    the error of the whole, and otherwise an error of the second is. The
    elements may be any objects. *)
Theorem X8_list_append (xs ys : list pyobj) :
  parse_shell_command (PyList (xs ++ ys))
  = (u <- parse_shell_command (PyList xs) ;;
     v <- parse_shell_command (PyList ys) ;;
     Ok (u ++ v)).
Proof.
  change (extend_with_each [] (xs ++ ys)
          = (u <- extend_with_each [] xs ;;
             v <- extend_with_each [] ys ;; Ok (u ++ v))).
  rewrite extend_with_each_app.
  destruct (extend_with_each [] xs) as [u | e]; simpl; [|reflexivity].
  apply extend_with_each_acc.
Qed.

Section RunnerMore.
Variable world : Type.
Variable popen : Subprocess.launcher world.
Variable kwargs : Subprocess.kwargs.

(** When the loop raises, it does so in the call for one of its vectors,
    after the calls for those before it, and its final state is the one
    that call left. *)
Lemma run_each_raises vs : forall st e st',
  run_each world popen vs kwargs st = (Raise e, st') ->
  exists done v rest stv,
    vs = done ++ v :: rest
    /\ Subprocess.launched stv = Subprocess.launched st ++ done
    /\ Subprocess.run popen v kwargs stv = (Raise e, st').
Proof.
  induction vs as [|v vs IH]; intros st e st' H; simpl in H.
  - discriminate.
  - unfold Subprocess.bindM in H.
    pose proof (run_launched world popen kwargs v st) as L.
    destruct (Subprocess.run popen v kwargs st) as [[cp | e1] st1] eqn:R;
      simpl in L.
    + destruct (IH st1 e st' H) as [done [v' [rest [stv [E [Ls Rv]]]]]].
      exists (v :: done), v', rest, stv. subst vs. repeat split.
      * rewrite Ls, L, <- app_assoc. reflexivity.
      * exact Rv.
    + injection H as <- <-. exists [], v, vs, st. repeat split.
      * rewrite app_nil_r. reflexivity.
      * exact R.
Qed.

Lemma run_each_returns vs : forall st u st',
  run_each world popen vs kwargs st = (Ok u, st') ->
  Subprocess.launched st' = Subprocess.launched st ++ vs.
Proof.
  induction vs as [|v vs IH]; intros st u st' H; simpl in H.
  - injection H as _ <-. rewrite app_nil_r. reflexivity.
  - unfold Subprocess.bindM in H.
    pose proof (run_launched world popen kwargs v st) as L.
    destruct (Subprocess.run popen v kwargs st) as [[cp | e1] st1] eqn:R;
      simpl in L; [|discriminate].
    rewrite (IH st1 u st' H), L, <- app_assoc. reflexivity.
Qed.


Lemma subprocess_run_cases (commands : pyobj) st :
  subprocess_run world popen commands kwargs st
  = match parse_shell_command commands with
    | Raise e => (Raise e, st)
    | Ok vs =>
        match run_each world popen vs kwargs st with
        | (Ok _, st') => (Ok ShellUtil_class, st')
        | (Raise e, st') => (Raise e, st')
        end
    end.
Proof.
  unfold subprocess_run, Subprocess.bindM, Subprocess.lift, Subprocess.ret.
  destruct (parse_shell_command commands); [|reflexivity].
  destruct (run_each world popen a kwargs st) as [[u | e] st']; reflexivity.
Qed.

End RunnerMore.

(** X9. A sequence is parsed as a whole before anything runs: when the
    elements before some element parse and that element makes
    [_get_commands_from_str] raise (an integer has no [strip]: that is an
    [AttributeError]), [subprocess_run] raises that exception and launches
    nothing, also not the valid commands that come before the element. *)
Theorem X9_bad_element_runs_nothing
    (world : Type) (popen : Subprocess.launcher world)
    (kwargs : Subprocess.kwargs) (xs : list pyobj) (bad : pyobj)
    (ys : list pyobj) (us : list (list str)) (e : exn)
    (st : Subprocess.state world) :
  parse_shell_command (PyList xs) = Ok us ->
  _get_commands_from_str bad = Raise e ->
  subprocess_run world popen (PyList (xs ++ bad :: ys)) kwargs st
  = (Raise e, st)
  /\ subprocess_run world popen (PyTuple (xs ++ bad :: ys)) kwargs st
     = (Raise e, st).
Proof.
  intros Px Hb. rewrite !subprocess_run_cases.
  change (parse_shell_command (PyList (xs ++ bad :: ys)))
    with (extend_with_each [] (xs ++ bad :: ys)).
  change (parse_shell_command (PyTuple (xs ++ bad :: ys)))
    with (extend_with_each [] (xs ++ bad :: ys)).
  change (extend_with_each [] xs = Ok us) in Px.
  rewrite extend_with_each_app, Px. simpl. rewrite Hb.
  split; reflexivity.
Qed.

Lemma X9_bad_element_runs_nothing_witness :
  parse_shell_command (PyList [PyStr (py "ls -l")]) = Ok [[py "ls"; py "-l"]]
  /\ _get_commands_from_str (PyInt 7) = Raise (AttributeError "strip")
  /\ subprocess_run unit demo_popen
       (PyList ([PyStr (py "ls -l")] ++ PyInt 7 :: [PyStr (py "pwd")]))
       Subprocess.no_kwargs fresh
     = (Raise (AttributeError "strip"), fresh).
Proof.
  split; [reflexivity|]. split; [reflexivity|].
  apply (X9_bad_element_runs_nothing unit demo_popen Subprocess.no_kwargs
           [PyStr (py "ls -l")] (PyInt 7) [PyStr (py "pwd")]
           [[py "ls"; py "-l"]] (AttributeError "strip") fresh);
    reflexivity.
Defined.

(** X10. When [subprocess_run] returns, the specification parsed and
    every parsed vector was handed to [subprocess.run] once, in order;
    what it returns is the class. *)
Theorem X10_return_means_all_launched
    (world : Type) (popen : Subprocess.launcher world)
    (kwargs : Subprocess.kwargs) (commands : pyobj)
    (st st' : Subprocess.state world) (h : handle) :
  subprocess_run world popen commands kwargs st = (Ok h, st') ->
  h = ShellUtil_class
  /\ exists vs,
       parse_shell_command commands = Ok vs
       /\ Subprocess.launched st' = Subprocess.launched st ++ vs.
Proof.
  rewrite subprocess_run_cases. intros H.
  destruct (parse_shell_command commands) as [vs | e]; [|discriminate].
  destruct (run_each world popen vs kwargs st) as [[u | e] st1] eqn:R;
    [|discriminate].
  injection H as <- <-. split; [reflexivity|]. exists vs. split; [reflexivity|].
  exact (run_each_returns world popen kwargs vs st u st1 R).
Qed.

Lemma X10_return_means_all_launched_witness :
  subprocess_run unit demo_popen (PyStr (py "ls -l; pwd;")) Subprocess.no_kwargs fresh
  = (Ok ShellUtil_class,
     {| Subprocess.os := tt;
        Subprocess.launched := [[py "ls"; py "-l"]; [py "pwd"]] |})
  /\ exists vs,
       parse_shell_command (PyStr (py "ls -l; pwd;")) = Ok vs
       /\ [[py "ls"; py "-l"]; [py "pwd"]] = [] ++ vs.
Proof.
  split; [reflexivity|].
  apply (X10_return_means_all_launched unit demo_popen Subprocess.no_kwargs
           (PyStr (py "ls -l; pwd;")) fresh
           {| Subprocess.os := tt;
              Subprocess.launched := [[py "ls"; py "-l"]; [py "pwd"]] |}
           ShellUtil_class).
  reflexivity.
Defined.

(** X11. When the specification parses and [subprocess_run] raises, the
    exception is the one [subprocess.run] raised for one of the vectors:
    the vectors before it were launched in order, it was the last one
    launched, and the state is the one its call left, so that no later
    vector was launched. *)
Theorem X11_raise_stops_the_run
    (world : Type) (popen : Subprocess.launcher world)
    (kwargs : Subprocess.kwargs) (commands : pyobj)
    (vs : list (list str)) (st st' : Subprocess.state world) (e : exn) :
  parse_shell_command commands = Ok vs ->
  subprocess_run world popen commands kwargs st = (Raise e, st') ->
  exists done v rest stv,
    vs = done ++ v :: rest
    /\ Subprocess.launched stv = Subprocess.launched st ++ done
    /\ Subprocess.run popen v kwargs stv = (Raise e, st')
    /\ Subprocess.launched st' = Subprocess.launched st ++ done ++ [v].
Proof.
  intros P H. rewrite subprocess_run_cases, P in H.
  destruct (run_each world popen vs kwargs st) as [[u | e1] st1] eqn:R;
    [discriminate|].
  injection H as -> ->.
  destruct (run_each_raises world popen kwargs vs st e st' R)
    as [done [v [rest [stv [E [L Rv]]]]]].
  exists done, v, rest, stv. repeat split; try assumption.
  pose proof (run_launched world popen kwargs v stv) as Lv.
  rewrite Rv in Lv. simpl in Lv. rewrite Lv, L, <- app_assoc. reflexivity.
Qed.

Lemma X11_raise_stops_the_run_witness :
  parse_shell_command (PyStr (py "ls; nosuchprogram -x; pwd"))
  = Ok [[py "ls"]; [py "nosuchprogram"; py "-x"]; [py "pwd"]]
  /\ subprocess_run unit demo_popen (PyStr (py "ls; nosuchprogram -x; pwd"))
       Subprocess.no_kwargs fresh
     = (Raise (FileNotFoundError "nosuchprogram"),
        {| Subprocess.os := tt;
           Subprocess.launched := [[py "ls"]; [py "nosuchprogram"; py "-x"]] |})
  /\ exists done v rest stv,
       [[py "ls"]; [py "nosuchprogram"; py "-x"]; [py "pwd"]] = done ++ v :: rest
       /\ Subprocess.launched stv = [] ++ done
       /\ Subprocess.run demo_popen v Subprocess.no_kwargs stv
          = (Raise (FileNotFoundError "nosuchprogram"),
             {| Subprocess.os := tt;
                Subprocess.launched := [[py "ls"]; [py "nosuchprogram"; py "-x"]] |})
       /\ [[py "ls"]; [py "nosuchprogram"; py "-x"]] = [] ++ done ++ [v].
Proof.
  split; [reflexivity|]. split; [reflexivity|].
  apply (X11_raise_stops_the_run unit demo_popen Subprocess.no_kwargs
           (PyStr (py "ls; nosuchprogram -x; pwd"))
           [[py "ls"]; [py "nosuchprogram"; py "-x"]; [py "pwd"]] fresh
           {| Subprocess.os := tt;
              Subprocess.launched := [[py "ls"]; [py "nosuchprogram"; py "-x"]] |}
           (FileNotFoundError "nosuchprogram")); reflexivity.
Defined.



(** X13. Nothing to run: for an empty list or tuple, and for strings that
    are empty or all whitespace, alone or in a sequence, [subprocess_run]
    launches no process, leaves the state as it was and returns the
    class. *)
Theorem X13_blank_runs_nothing
    (world : Type) (popen : Subprocess.launcher world)
    (kwargs : Subprocess.kwargs) (ss : list str)
    (st : Subprocess.state world) :
  forallb blank ss = true ->
  subprocess_run world popen (PyList (map PyStr ss)) kwargs st
  = (Ok ShellUtil_class, st)
  /\ subprocess_run world popen (PyTuple (map PyStr ss)) kwargs st
     = (Ok ShellUtil_class, st)
  /\ Forall (fun s => subprocess_run world popen (PyStr s) kwargs st
                      = (Ok ShellUtil_class, st)) ss.
Proof.
  intros H. rewrite !subprocess_run_cases.
  change (parse_shell_command (PyList (map PyStr ss)))
    with (extend_with_each [] (map PyStr ss)).
  change (parse_shell_command (PyTuple (map PyStr ss)))
    with (extend_with_each [] (map PyStr ss)).
  rewrite extend_with_each_strs, (concat_commands_from_str_blank ss H).
  split; [reflexivity|]. split; [reflexivity|].
  apply Forall_forall. intros s I.
  rewrite forallb_forall in H. specialize (H s I).
  rewrite subprocess_run_cases, parse_str. unfold commands_from_str.
  rewrite strip_blank by exact H. reflexivity.
Qed.

Lemma X13_blank_runs_nothing_witness :
  forallb blank [py ""; py "   "] = true
  /\ subprocess_run unit demo_popen (PyList (map PyStr [py ""; py "   "]))
       Subprocess.no_kwargs fresh
     = (Ok ShellUtil_class, fresh)
  /\ forallb blank [] = true
  /\ subprocess_run unit demo_popen (PyList (map PyStr []))
       Subprocess.no_kwargs fresh
     = (Ok ShellUtil_class, fresh).
Proof.
  split; [reflexivity|].
  split; [apply (X13_blank_runs_nothing unit demo_popen Subprocess.no_kwargs
                   [py ""; py "   "] fresh); reflexivity|].
  split; [reflexivity|].
  apply (X13_blank_runs_nothing unit demo_popen Subprocess.no_kwargs [] fresh).
  reflexivity.
Defined.

Section Chaining.
Variable world : Type.
Variable popen : Subprocess.launcher world.
Variable kwargs : Subprocess.kwargs.

(** The loop over two lists of vectors, one after the other. *)
Lemma run_each_app (us vs : list (list str)) : forall st,
  run_each world popen (us ++ vs) kwargs st
  = (_ <~ run_each world popen us kwargs ;; run_each world popen vs kwargs) st.
Proof.
  induction us as [|u us IH]; intros st; simpl; [reflexivity|].
  unfold Subprocess.bindM in *.
  destruct (Subprocess.run popen u kwargs st) as [[cp | e] st1];
    [|reflexivity].
  apply IH.
Qed.

(** One call for vectors that are the concatenation of those of two
    specifications is the call for the first followed by the call for the
    second. *)
Lemma subprocess_run_chain (ab a b : pyobj) (us vs : list (list str)) st :
  parse_shell_command a = Ok us ->
  parse_shell_command b = Ok vs ->
  parse_shell_command ab = Ok (us ++ vs) ->
  subprocess_run world popen ab kwargs st
  = (_ <~ subprocess_run world popen a kwargs ;;
     subprocess_run world popen b kwargs) st.
Proof.
  intros Pa Pb Pab. unfold Subprocess.bindM at 1.
  rewrite !subprocess_run_cases, Pa, Pab, run_each_app.
  unfold Subprocess.bindM at 1.
  destruct (run_each world popen us kwargs st) as [[u | e] st1];
    [|reflexivity].
  rewrite subprocess_run_cases, Pb. reflexivity.
Qed.

End Chaining.

(** X14. Chaining: for two lists that both parse, one call of
    [subprocess_run] on their concatenation does what the call on the
    first followed by the call on the second does: same launches in the
    same order, same final state, same result or exception. *)
Theorem X14_chained_calls_lists
    (world : Type) (popen : Subprocess.launcher world)
    (kwargs : Subprocess.kwargs) (xs ys : list pyobj)
    (us vs : list (list str)) (st : Subprocess.state world) :
  parse_shell_command (PyList xs) = Ok us ->
  parse_shell_command (PyList ys) = Ok vs ->
  subprocess_run world popen (PyList (xs ++ ys)) kwargs st
  = (_ <~ subprocess_run world popen (PyList xs) kwargs ;;
     subprocess_run world popen (PyList ys) kwargs) st.
Proof.
  intros Px Py.
  apply (subprocess_run_chain world popen kwargs _ _ _ us vs st Px Py).
  change (extend_with_each [] (xs ++ ys) = Ok (us ++ vs)).
  change (extend_with_each [] xs = Ok us) in Px.
  change (extend_with_each [] ys = Ok vs) in Py.
  rewrite extend_with_each_app, Px. simpl.
  rewrite extend_with_each_acc, Py. reflexivity.
Qed.

Lemma X14_chained_calls_lists_witness :
  parse_shell_command (PyList [PyStr (py "false; ls")])
  = Ok [[py "false"]; [py "ls"]]
  /\ parse_shell_command (PyList [PyStr (py "nosuchprogram"); PyStr (py "pwd")])
     = Ok [[py "nosuchprogram"]; [py "pwd"]]
  /\ subprocess_run unit demo_popen
       (PyList ([PyStr (py "false; ls")]
                ++ [PyStr (py "nosuchprogram"); PyStr (py "pwd")]))
       Subprocess.no_kwargs fresh
     = (_ <~ subprocess_run unit demo_popen (PyList [PyStr (py "false; ls")])
               Subprocess.no_kwargs ;;
        subprocess_run unit demo_popen
          (PyList [PyStr (py "nosuchprogram"); PyStr (py "pwd")])
          Subprocess.no_kwargs) fresh.
Proof.
  split; [reflexivity|]. split; [reflexivity|].
  apply (X14_chained_calls_lists unit demo_popen Subprocess.no_kwargs
           [PyStr (py "false; ls")]
           [PyStr (py "nosuchprogram"); PyStr (py "pwd")]
           [[py "false"]; [py "ls"]] [[py "nosuchprogram"]; [py "pwd"]] fresh);
    reflexivity.
Defined.

(** X15. The same for one string: when [a] does not end and [b] does not
    start with whitespace, [subprocess_run(a + ";" + b)] does what
    [subprocess_run(a)] followed by [subprocess_run(b)] does. *)
Theorem X15_chained_calls_string
    (world : Type) (popen : Subprocess.launcher world)
    (kwargs : Subprocess.kwargs) (a b : str) (st : Subprocess.state world) :
  rstrip a = a -> lstrip b = b ->
  subprocess_run world popen (PyStr (a ++ semicolon :: b)) kwargs st
  = (_ <~ subprocess_run world popen (PyStr a) kwargs ;;
     subprocess_run world popen (PyStr b) kwargs) st.
Proof.
  intros Ha Hb.
  apply (subprocess_run_chain world popen kwargs _ _ _
           (commands_from_str a) (commands_from_str b) st); try apply parse_str.
  rewrite parse_str, commands_from_str_around_delimiter by assumption. reflexivity.
Qed.

Lemma X15_chained_calls_string_witness :
  rstrip (py "ls -l") = py "ls -l"
  /\ lstrip (py "false; pwd ") = py "false; pwd "
  /\ subprocess_run unit demo_popen (PyStr (py "ls -l" ++ semicolon :: py "false; pwd "))
       Subprocess.no_kwargs fresh
     = (_ <~ subprocess_run unit demo_popen (PyStr (py "ls -l")) Subprocess.no_kwargs ;;
        subprocess_run unit demo_popen (PyStr (py "false; pwd ")) Subprocess.no_kwargs)
         fresh.
Proof.
  split; [reflexivity|]. split; [reflexivity|].
  apply (X15_chained_calls_string unit demo_popen Subprocess.no_kwargs
           (py "ls -l") (py "false; pwd ") fresh); reflexivity.
Defined.

(* ===================================================================== *)
(** ** The code against the [splitString] of the specification *)
(* ===================================================================== *)

Section AgainstSpec.

Lemma strip_length_blank (piece : str) :
  (0 <? length (strip piece)) = negb (blank piece).
Proof.
  destruct (blank piece) eqn:B.
  - rewrite (strip_blank piece B). reflexivity.
  - apply length_pos, strip_not_blank, B.
Qed.

Lemma spec_splitString_vectors (text : str) :
  spec_splitString text = vectors_of (split semicolon text).
Proof.
  unfold spec_splitString, vectors_of. f_equal.
  apply filter_ext. intros piece. apply strip_length_blank.
Qed.

Lemma has_token_split_ws (c : str) : has_token (split_ws c) = negb (blank c).
Proof.
  destruct (blank c) eqn:B.
  - rewrite (split_ws_blank c B). reflexivity.
  - destruct (split_ws c) eqn:E; [|reflexivity].
    apply split_ws_nil_blank in E. congruence.
Qed.

Lemma filter_has_token (commands : list str) :
  filter has_token (map split_ws commands) = vectors_of commands.
Proof.
  unfold vectors_of. induction commands as [|c commands IH]; simpl; [reflexivity|].
  rewrite has_token_split_ws. destruct (blank c); simpl; rewrite IH; reflexivity.
Qed.

Lemma vectors_of_kept (pieces : list str) :
  vectors_of (filter (fun command => 0 <? length command) pieces)
  = vectors_of pieces.
Proof.
  unfold vectors_of. f_equal.
  induction pieces as [|[|c piece] pieces IH]; simpl; [reflexivity | exact IH |].
  rewrite IH. reflexivity.
Qed.

Lemma vectors_of_space c (piece : str) (pieces : list str) :
  isspace c = true ->
  vectors_of ((c :: piece) :: pieces) = vectors_of (piece :: pieces).
Proof.
  intros Hc. unfold vectors_of. simpl. rewrite Hc. simpl.
  destruct (blank piece); simpl; [reflexivity|].
  rewrite (split_ws_space c piece Hc). reflexivity.
Qed.

Lemma space_not_semicolon c : isspace c = true -> (c =? semicolon)%N = false.
Proof.
  intros Hc. destruct (N.eqb_spec c semicolon) as [->|]; [|reflexivity].
  rewrite semicolon_not_space in Hc. discriminate.
Qed.

(** Whitespace in front of the text only pads its first piece. *)
Lemma vectors_of_split_prefix (gap text : str) :
  blank gap = true ->
  vectors_of (split semicolon (gap ++ text)) = vectors_of (split semicolon text).
Proof.
  induction gap as [|c gap IH]; simpl; [reflexivity|].
  destruct (isspace c) eqn:Hc; simpl; [|discriminate].
  intros B. rewrite <- (IH B). unfold split. simpl.
  destruct (split_from semicolon (gap ++ text)) as [piece pieces].
  rewrite (space_not_semicolon c Hc). apply vectors_of_space. exact Hc.
Qed.

(** Text added after the last delimiter only extends the last piece. *)
Lemma split_from_suffix (text gap : str) :
  ~ In semicolon gap ->
  let (p, ps) := split_from semicolon text in
  let (p2, ps2) := split_from semicolon (text ++ gap) in
  (ps = [] /\ ps2 = [] /\ p2 = p ++ gap)
  \/ (p2 = p /\ exists init last,
         ps = init ++ [last] /\ ps2 = init ++ [last ++ gap]).
Proof.
  intros Hg. induction text as [|c text IH]; simpl.
  - rewrite (split_from_no_sep semicolon gap Hg). left. auto.
  - destruct (split_from semicolon text) as [p ps].
    destruct (split_from semicolon (text ++ gap)) as [p2 ps2].
    destruct (c =? semicolon)%N.
    + right. split; [reflexivity|].
      destruct IH as [[-> [-> ->]] | [-> [init [last [-> ->]]]]].
      * exists [], p. auto.
      * exists (p :: init), last. auto.
    + destruct IH as [[-> [-> ->]] | [-> [init [last [-> ->]]]]].
      * left. auto.
      * right. split; [reflexivity|]. exists init, last. auto.
Qed.

Lemma vectors_of_app (xs ys : list str) :
  vectors_of (xs ++ ys) = vectors_of xs ++ vectors_of ys.
Proof. unfold vectors_of. rewrite filter_app, map_app. reflexivity. Qed.

Lemma vectors_of_pad (piece gap : str) :
  blank gap = true -> vectors_of [piece ++ gap] = vectors_of [piece].
Proof.
  intros B. unfold vectors_of. simpl. rewrite blank_app, B, andb_true_r.
  destruct (blank piece); simpl; [reflexivity|].
  rewrite (split_ws_app_blank_r piece gap B). reflexivity.
Qed.

(** Whitespace behind the text only pads its last piece. *)
Lemma vectors_of_split_suffix (text gap : str) :
  blank gap = true ->
  vectors_of (split semicolon (text ++ gap)) = vectors_of (split semicolon text).
Proof.
  intros B.
  pose proof (split_from_suffix text gap
                (blank_not_In semicolon gap semicolon_not_space B)) as H.
  unfold split.
  destruct (split_from semicolon text) as [p ps].
  destruct (split_from semicolon (text ++ gap)) as [p2 ps2].
  destruct H as [[-> [-> ->]] | [-> [init [last [-> ->]]]]].
  - apply vectors_of_pad. exact B.
  - change (vectors_of ((p :: init) ++ [last ++ gap])
            = vectors_of ((p :: init) ++ [last])).
    rewrite !vectors_of_app, (vectors_of_pad last gap B). reflexivity.
Qed.

(** Stripping the whole text first, as the code does, does not change the
    vectors of the pieces that are not blank. *)
Lemma vectors_of_split_strip (text : str) :
  vectors_of (split semicolon (strip text)) = vectors_of (split semicolon text).
Proof.
  destruct (strip_split text) as [l [r [E [Bl Br]]]].
  rewrite E at 2.
  rewrite (vectors_of_split_prefix l _ Bl), (vectors_of_split_suffix _ r Br).
  reflexivity.
Qed.

(** The [splitString] of the specification is the result of the code
    without its empty vectors. *)
Theorem spec_splitString_code (text : str) :
  spec_splitString text = filter has_token (commands_from_str text).
Proof.
  rewrite spec_splitString_vectors, commands_from_str_kept, filter_has_token.
  unfold kept_commands. rewrite vectors_of_kept. symmetry.
  apply vectors_of_split_strip.
Qed.

Lemma filter_all (A : Type) (f : A -> bool) (l : list A) :
  forallb f l = true -> filter f l = l.
Proof.
  induction l as [|x l IH]; simpl; [reflexivity|].
  intros H. apply andb_prop in H as [Hx H]. rewrite Hx, (IH H). reflexivity.
Qed.

(** The code and the specification agree on a text exactly when the code
    returns no empty vector for it. *)
Theorem spec_splitString_agrees (text : str) :
  commands_from_str text = spec_splitString text
  <-> forallb has_token (commands_from_str text) = true.
Proof.
  rewrite spec_splitString_code. split.
  - intros E. rewrite E. apply forallb_forall. intros v Hv.
    apply filter_In in Hv. tauto.
  - intros H. symmetry. apply filter_all. exact H.
Qed.

(** On a sequence of strings, the result without its empty vectors is the
    concatenation of the [splitString] of the elements; the result itself
    is, when it has no empty vector. *)
Theorem parse_sequence_spec (ss : list str) :
  exists vs,
    parse_shell_command (PyList (map PyStr ss)) = Ok vs
    /\ parse_shell_command (PyTuple (map PyStr ss)) = Ok vs
    /\ filter has_token vs = concat (map spec_splitString ss)
    /\ (forallb has_token vs = true ->
        vs = concat (map spec_splitString ss)).
Proof.
  exists (concat (map commands_from_str ss)).
  destruct (parse_sequence_concat ss) as [Hl Ht].
  split; [exact Hl|]. split; [exact Ht|].
  assert (F : filter has_token (concat (map commands_from_str ss))
              = concat (map spec_splitString ss)).
  { rewrite <- concat_filter_map, map_map. f_equal.
    apply map_ext. intros s. symmetry. apply spec_splitString_code. }
  split; [exact F|].
  intros H. rewrite <- F. symmetry. apply filter_all. exact H.
Qed.

End AgainstSpec.
